(** * cateye: gaze-event classifier adapters

    A shallow embedding of [cateye/cateye.py]: the three label tables and the
    two adapters [classify_nslr_hmm] and [classify_remodnav].  Python values
    that serve as labels and dictionary keys are a small tagged union, the
    module-level tables live in a store that every call receives and hands
    back, warnings and backend invocations are recorded in a trace, and
    exceptions are an error result.  The classification backends (nslr_hmm,
    remodnav), numpy's arithmetic and the converters of [cateye/utils.py] are
    interfaces; concrete instances over exact rationals are given further
    down for evaluation.  The adapters are given twice: on values, and on
    objects, where the event records of REMoDNaV are cells of a store that
    [classify_remodnav] updates in place and the warnings module keeps its
    registry. *)

From Stdlib Require Import QArith Qround.
From stdpp Require Import gmap strings list.

(** ** Python values used as labels and dictionary keys *)

Inductive pyval :=
  | PyNone
  | PyInt (i : Z)
  | PyStr (s : string).

#[global] Instance pyval_eq_dec : EqDecision pyval.
Proof. solve_decision. Defined.

Definition pyval_encode (v : pyval) : option (Z + string) :=
  match v with
  | PyNone => None
  | PyInt i => Some (inl i)
  | PyStr s => Some (inr s)
  end.

Definition pyval_decode (o : option (Z + string)) : pyval :=
  match o with
  | None => PyNone
  | Some (inl i) => PyInt i
  | Some (inr s) => PyStr s
  end.

#[global] Instance pyval_countable : Countable pyval.
Proof. apply (inj_countable' pyval_encode pyval_decode). by intros []. Defined.

(** ** Exceptions and fallible results *)

(** [Raised] stands for an exception of a collaborator (a backend or
    [cateye.utils]); the adapters intercept none of them. *)
Inductive exn :=
  | KeyError (k : pyval)
  | IndexError
  | ValueError
  | ZeroDivisionError
  | Raised (name : string).

Inductive result (A : Type) :=
  | Ok (a : A)
  | Err (e : exn).
Arguments Ok {A} a.
Arguments Err {A} e.

#[global] Instance result_ret : MRet result := λ A a, Ok a.
#[global] Instance result_bind : MBind result := λ A B f r,
  match r with
  | Ok a => f a
  | Err e => Err e
  end.

(** A comprehension [[f(v) for v in l]]: left to right, stopping at the first
    exception. *)
Fixpoint comprehension {A B} (f : A → result B) (l : list A) : result (list B) :=
  match l with
  | [] => Ok []
  | a :: l' =>
      match f a with
      | Ok b =>
          match comprehension f l' with
          | Ok bs => Ok (b :: bs)
          | Err e => Err e
          end
      | Err e => Err e
      end
  end.

(** [l[i]] for a non-negative index. *)
Definition getindex {A} (l : list A) (i : nat) : result A :=
  match l !! i with
  | Some a => Ok a
  | None => Err IndexError
  end.

(** ** Dictionaries *)

(** A dictionary display [{k1: v1, k2: v2, ...}]: entries are stored left to
    right, so a repeated key keeps its last value. *)
Definition py_dict (items : list (pyval * string)) : gmap pyval string :=
  list_to_map (reverse items).

(** [d[k]] *)
Definition getitem (d : gmap pyval string) (k : pyval) : result string :=
  match d !! k with
  | Some v => Ok v
  | None => Err (KeyError k)
  end.

(** ** The module-level tables *)

(** The four class ids exported by [nslr_hmm]. *)
Record nslr_ids := {
  FIXATION : Z;
  SACCADE : Z;
  SMOOTH_PURSUIT : Z;
  PSO : Z
}.

Definition CLASSES (ids : nslr_ids) : gmap pyval string :=
  py_dict [ (PyInt (FIXATION ids), "Fixation");
            (PyInt (SACCADE ids), "Saccade");
            (PyInt (SMOOTH_PURSUIT ids), "Smooth Pursuit");
            (PyInt (PSO ids), "PSO");
            (PyNone, "None") ]%string.

Definition REMODNAV_CLASSES_items : list (pyval * string) :=
  [ (PyStr "FIXA", "Fixation"); (PyStr "SACC", "Saccade");
    (PyStr "ISAC", "ISaccade"); (PyStr "PURS", "Smooth Pursuit");
    (PyStr "HPSO", "High-Velocity PSO");
    (PyStr "LPSO", "Low-Velocity PSO");
    (PyStr "IHPS", "High-Velocity PSO (NCB)");
    (PyStr "ILPS", "Low-Velocity PSO (NCB)") ]%string.

Definition REMODNAV_CLASSES : gmap pyval string :=
  py_dict REMODNAV_CLASSES_items.

Definition REMODNAV_SIMPLE_items : list (pyval * string) :=
  [ (PyStr "FIXA", "Fixation"); (PyStr "SACC", "Saccade");
    (PyStr "ISAC", "Saccade"); (PyStr "PURS", "Smooth Pursuit");
    (PyStr "HPSO", "PSO"); (PyStr "LPSO", "PSO");
    (PyStr "IHPS", "PSO"); (PyStr "ILPS", "PSO") ]%string.

Definition REMODNAV_SIMPLE : gmap pyval string :=
  py_dict REMODNAV_SIMPLE_items.

(** The module's global names after import. *)
Record globals := {
  g_CLASSES : gmap pyval string;
  g_REMODNAV_CLASSES : gmap pyval string;
  g_REMODNAV_SIMPLE : gmap pyval string
}.

Definition module_globals (ids : nslr_ids) : globals :=
  {| g_CLASSES := CLASSES ids;
     g_REMODNAV_CLASSES := REMODNAV_CLASSES;
     g_REMODNAV_SIMPLE := REMODNAV_SIMPLE |}.

(** The key [k] has exactly one image in [d]. *)
Definition maps_to_one (d : gmap pyval string) (k : pyval) : Prop :=
  ∃ c, d !! k = Some c ∧ ∀ c', d !! k = Some c' → c' = c.

(** [REMODNAV_SIMPLE if simple_output else REMODNAV_CLASSES] *)
Definition class_dict_of (g : globals) (simple_output : bool) : gmap pyval string :=
  if simple_output then g_REMODNAV_SIMPLE g else g_REMODNAV_CLASSES g.

(** The eight event codes of REMoDNaV and the categories of its simplified
    output, as the docstring of [classify_remodnav] lists them. *)
Definition remodnav_codes : list pyval :=
  [ PyStr "FIXA"; PyStr "SACC"; PyStr "ISAC"; PyStr "PURS";
    PyStr "HPSO"; PyStr "LPSO"; PyStr "IHPS"; PyStr "ILPS" ]%string.

Definition base_categories : list string :=
  [ "Fixation"; "Saccade"; "Smooth Pursuit"; "PSO" ]%string.

(** ** Collaborators *)

(** The arithmetic the adapters take from Python and numpy. *)
Class Numeric (num : Type) := {
  (** [1 / time] on a Python scalar; [None] is ZeroDivisionError *)
  py_recip : num → option num;
  (** [1 / v] on a numpy scalar, which does not raise *)
  np_recip : num → num;
  np_add : num → num → num;
  np_sub : num → num → num;
  np_mean : list num → num;
  np_std : list num → num;
  np_gt : num → num → bool;
  (** [np.arange(start, stop, step)] with integer [start] and [stop] *)
  np_arange : nat → nat → num → list num;
  (** the literal [1e-5] *)
  tolerance : num
}.

(** The same arithmetic with another standard deviation. *)
Definition with_std {num : Type} (N : Numeric num) (std : list num → num)
    : Numeric num :=
  {| py_recip := @py_recip num N;
     np_recip := @np_recip num N;
     np_add := @np_add num N;
     np_sub := @np_sub num N;
     np_mean := @np_mean num N;
     np_std := std;
     np_gt := @np_gt num N;
     np_arange := @np_arange num N;
     tolerance := @tolerance num N |}.

(** A segment of the segmentation [nslr_hmm] returns, a type of the [nslr]
    package: [seg_i] is its pair (start, end) of sample indices, the start
    index the specification speaks of, and [seg_t] its pair (start, end) of
    times, the attribute [t] that the adapter reads. *)
Record Segment (num : Type) := {
  seg_i : nat * nat;
  seg_t : num * num
}.
Arguments seg_i {num} _.
Arguments seg_t {num} _.

Record Segmentation (num : Type) := {
  segments : list (Segment num)
}.
Arguments segments {num} _.

(** [nslr_hmm]: its class ids and [classify_gaze(ts, xs, **kwargs)], which
    returns [(sample_class, seg, seg_class)] or raises. *)
Class NslrHmm (num kwargs : Type) := {
  nslr_hmm_ids : nslr_ids;
  classify_gaze :
    list num → list (num * num) → kwargs →
    result (list pyval * Segmentation num * list pyval)
}.

(** An event record of REMoDNaV, with the three fields the adapter reads. *)
Record event (num : Type) := {
  start_time : num;
  end_time : num;
  label : pyval
}.
Arguments start_time {num} _.
Arguments end_time {num} _.
Arguments label {num} _.

(** [remodnav.clf.EyegazeClassifier]: construction, [preproc] and
    [__call__]. *)
Class Remodnav (num kwargs : Type) := {
  classifier : Type;
  preprocessed : Type;
  EyegazeClassifier : num → num → kwargs → result classifier;
  preproc : classifier → list (num * num) → kwargs → result preprocessed;
  clf_call : classifier → preprocessed → kwargs → result (list (event num))
}.

(** [cateye.utils.discrete_to_continuous(times, segments, classes)]; the
    adapters only pass its pair of results on. *)
Class Utils (num : Type) := {
  discrete_to_continuous :
    list num → list num → list pyval → result (list num * list pyval)
}.

(** ** The adapters *)

Section Adapters.
Context {num kwargs : Type}.
Context `{!Numeric num, !NslrHmm num kwargs, !Remodnav num kwargs, !Utils num}.

(** What a call does besides returning: warnings and backend calls, in
    order. *)
Inductive effect :=
  | Warning (message : string)
  | Call_classify_gaze (ts : list num) (xs : list (num * num)) (kw : kwargs)
  | Call_EyegazeClassifier (px2deg sampling_rate : num) (kw : kwargs)
  | Call_preproc (data : list (num * num)) (kw : kwargs)
  | Call_clf (kw : kwargs).

Record world := {
  w_globals : globals;
  w_trace : list effect
}.

Definition M (A : Type) : Type := world → world * result A.

#[global] Instance M_ret : MRet M := λ A a w, (w, Ok a).
#[global] Instance M_bind : MBind M := λ A B f m w,
  match m w with
  | (w', Ok a) => f a w'
  | (w', Err e) => (w', Err e)
  end.

Definition lift {A} (r : result A) : M A := λ w, (w, r).

Definition emit (e : effect) : M unit := λ w,
  ({| w_globals := w_globals w; w_trace := w_trace w ++ [e] |}, Ok tt).

(** Reading a module-level name. *)
Definition read_global {A} (f : globals → A) : M A := λ w,
  (w, Ok (f (w_globals w))).

Definition warn (message : string) : M unit := emit (Warning message).

(** The [time] argument: anything iterable, or a scalar sampling rate. *)
Inductive time_arg :=
  | TimeArray (ts : list num)
  | TimeScalar (rate : num).

(** [np.array(time) if hasattr(time, '__iter__')
     else np.arange(0, len(x), 1/time)] *)
Definition time_array_of (time : time_arg) (x : list num) : result (list num) :=
  match time with
  | TimeArray ts => Ok ts
  | TimeScalar rate =>
      match py_recip rate with
      | Some step => Ok (np_arange 0 (length x) step)
      | None => Err ZeroDivisionError
      end
  end.

(** [np.vstack([x, y]).T] and [np.core.records.fromarrays([x, y], ...)]:
    rows [(x[k], y[k])]; arrays of different lengths are refused. *)
Definition columns (x y : list num) : result (list (num * num)) :=
  if decide (length x = length y) then Ok (zip x y) else Err ValueError.

(** *** classify_nslr_hmm *)

Record segment_dict := {
  sample_class : list pyval;
  segmentation : Segmentation num;
  seg_class : list pyval
}.

(** [[s.t[0] for s in seg.segments]] *)
Definition nslr_breakpoints (seg : Segmentation num) : list num :=
  map (λ s, fst (seg_t s)) (segments seg).

Definition classify_nslr_hmm (x y : list num) (time : time_arg)
    (return_discrete return_orig_output : bool) (nslr_kwargs : kwargs)
    : M (list num * list string * option segment_dict) :=
  gaze_array ← lift (columns x y);
  time_array ← lift (time_array_of time x);
  emit (Call_classify_gaze time_array gaze_array nslr_kwargs);;
  '(sample_class, seg, seg_class) ←
    lift (classify_gaze time_array gaze_array nslr_kwargs);
  let segments := nslr_breakpoints seg in
  let classes := seg_class in
  '(segments, classes) ←
    (if return_discrete then mret (segments, classes)
     else lift (discrete_to_continuous time_array segments classes));
  table ← read_global g_CLASSES;
  classes ← lift (comprehension (getitem table) classes);
  if return_orig_output then
    mret (segments, classes,
          Some {| sample_class := sample_class; segmentation := seg;
                  seg_class := seg_class |})
  else mret (segments, classes, None).

(** *** classify_remodnav *)

Definition newline : string := String (Ascii.ascii_of_nat 10) EmptyString.

Definition irregular_sampling_message : string :=
  (newline ++ newline ++
   "Irregular sampling rate detected. This can lead to impaired performance " ++
   "with this classifier. Consider resampling your data to a fixed sampling " ++
   "rate. Setting sampling rate to average sample difference.")%string.

(** [times[1:] - times[:-1]] *)
Definition diffs (times : list num) : list num :=
  zip_with np_sub (tail times) (removelast times).

(** One turn of the loop over [range(len(events))]: two in-place updates of
    [events[i]], each reading [times[0]]. *)
Definition realign_at (times : list num) (events : list (event num)) (i : nat)
    : result (list (event num)) :=
  ev ← getindex events i;
  t0 ← getindex times 0;
  let events :=
    <[i := {| start_time := np_add (start_time ev) t0;
              end_time := end_time ev; label := label ev |}]> events in
  ev ← getindex events i;
  t0 ← getindex times 0;
  Ok (<[i := {| start_time := start_time ev;
                end_time := np_add (end_time ev) t0; label := label ev |}]> events).

Fixpoint for_range (body : list (event num) → nat → result (list (event num)))
    (range : list nat) (events : list (event num)) : result (list (event num)) :=
  match range with
  | [] => Ok events
  | i :: range' =>
      match body events i with
      | Ok events' => for_range body range' events'
      | Err e => Err e
      end
  end.

Definition realign (times : list num) (events : list (event num))
    : result (list (event num)) :=
  for_range (realign_at times) (seq 0 (length events)) events.

(** [zip] over the unpacked list of rows, each row a pair: the two columns
    when there is a row, nothing at all when there is none. *)
Definition zip_star {A B} (rows : list (A * B)) : list (list A + list B) :=
  match rows with
  | [] => []
  | _ :: _ => [inl (map fst rows); inr (map snd rows)]
  end.

(** [segments, classes = ...]: unpacking into exactly two names. *)
Definition unpack_two {A B} (cols : list (list A + list B)) : result (list A * list B) :=
  match cols with
  | [inl segments; inr classes] => Ok (segments, classes)
  | _ => Err ValueError
  end.

Definition classify_remodnav (x y : list num) (time : time_arg) (px2deg : num)
    (return_discrete return_orig_output simple_output : bool)
    (classifier_kwargs preproc_kwargs process_kwargs : kwargs)
    : M (list num * list pyval * option (list (event num))) :=
  times ← lift (time_array_of time x);
  (if np_gt (np_std (diffs times)) tolerance
   then warn irregular_sampling_message else mret tt);;
  let sampling_rate := np_recip (np_mean (diffs times)) in
  data ← lift (columns x y);
  emit (Call_EyegazeClassifier px2deg sampling_rate classifier_kwargs);;
  clf ← lift (EyegazeClassifier px2deg sampling_rate classifier_kwargs);
  emit (Call_preproc data preproc_kwargs);;
  data_preproc ← lift (preproc clf data preproc_kwargs);
  emit (Call_clf process_kwargs);;
  events ← lift (clf_call clf data_preproc process_kwargs);
  events ← lift (realign times events);
  class_dict ← read_global
    (if simple_output then g_REMODNAV_SIMPLE else g_REMODNAV_CLASSES);
  rows ← lift (comprehension
    (λ ev, c ← getitem class_dict (label ev); Ok (start_time ev, PyStr c))
    events);
  '(segments, classes) ← lift (unpack_two (zip_star rows));
  '(segments, classes) ←
    (if return_discrete then mret (segments, classes)
     else lift (discrete_to_continuous times segments classes));
  if return_orig_output then mret (segments, classes, Some events)
  else mret (segments, classes, None).

(** *** The adapters once the backend has returned *)

(** An event after both in-place updates of its loop turn. *)
Definition realigned (t0 : num) (ev : event num) : event num :=
  {| start_time := np_add (start_time ev) t0;
     end_time := np_add (end_time ev) t0;
     label := label ev |}.

(** Lines 168 to 185 of [classify_remodnav], as a function of the tables,
    the time array and the events the backend returned. *)
Definition remodnav_after_backend (g : globals) (times : list num)
    (events : list (event num))
    (return_discrete return_orig_output simple_output : bool)
    : result (list num * list pyval * option (list (event num))) :=
  events ← realign times events;
  let class_dict :=
    if simple_output then g_REMODNAV_SIMPLE g else g_REMODNAV_CLASSES g in
  rows ← comprehension
    (λ ev, c ← getitem class_dict (label ev); Ok (start_time ev, PyStr c))
    events;
  '(segments, classes) ← unpack_two (zip_star rows);
  '(segments, classes) ←
    (if return_discrete then Ok (segments, classes)
     else discrete_to_continuous times segments classes);
  if return_orig_output then Ok (segments, classes, Some events)
  else Ok (segments, classes, None).

(** Lines 83 to 99 of [classify_nslr_hmm], as a function of the tables, the
    time array and the triple the backend returned. *)
Definition nslr_after_backend (g : globals) (time_array : list num)
    (out : list pyval * Segmentation num * list pyval)
    (return_discrete return_orig_output : bool)
    : result (list num * list string * option segment_dict) :=
  let '(sample_class, seg, seg_class) := out in
  '(segments, classes) ←
    (if return_discrete then Ok (nslr_breakpoints seg, seg_class)
     else discrete_to_continuous time_array (nslr_breakpoints seg) seg_class);
  classes ← comprehension (getitem (g_CLASSES g)) classes;
  if return_orig_output then
    Ok (segments, classes,
        Some {| sample_class := sample_class; segmentation := seg;
                seg_class := seg_class |})
  else Ok (segments, classes, None).

(** Lines 153 to 166 of [classify_remodnav] without their effects: the time
    array and the events the backend returns for the adapter's arguments. *)
Definition remodnav_events (x y : list num) (time : time_arg) (px2deg : num)
    (classifier_kwargs preproc_kwargs process_kwargs : kwargs)
    : result (list num * list (event num)) :=
  times ← time_array_of time x;
  data ← columns x y;
  clf ← EyegazeClassifier px2deg (np_recip (np_mean (diffs times))) classifier_kwargs;
  data_preproc ← preproc clf data preproc_kwargs;
  events ← clf_call clf data_preproc process_kwargs;
  Ok (times, events).

(** Lines 76 to 81 of [classify_nslr_hmm] without their effects: the time
    array and the triple the backend returns. *)
Definition nslr_answer (x y : list num) (time : time_arg) (nslr_kwargs : kwargs)
    : result (list num * (list pyval * Segmentation num * list pyval)) :=
  gaze_array ← columns x y;
  time_array ← time_array_of time x;
  out ← classify_gaze time_array gaze_array nslr_kwargs;
  Ok (time_array, out).

(** The world after further effects. *)
Definition after (w : world) (effects : list effect) : world :=
  {| w_globals := w_globals w; w_trace := w_trace w ++ effects |}.

(** The warning of line 155, if it is given. *)
Definition irregularity_warning (times : list num) : list effect :=
  if np_gt (np_std (diffs times)) tolerance
  then [Warning irregular_sampling_message] else [].

(** The rate of line 158. *)
Definition effective_sampling_rate (times : list num) : num :=
  np_recip (np_mean (diffs times)).

End Adapters.

(** ** The adapters on objects *)

(** The event records a backend hands out are mutable objects, and so is
    the registry in which the warnings module notes the warnings it has
    shown.  A store maps the identity of each record to its current fields;
    a sequence of events is a list of identities. *)
Abbreviation store num := (gmap nat (event num)).

(** The classifier call of REMoDNaV on a store of records: it returns the
    identities of its events and may create or change records. *)
Class RemodnavRecords (num kwargs : Type) `{!Remodnav num kwargs} := {
  clf_call_records :
    classifier → preprocessed → kwargs → store num → store num * result (list nat)
}.

Section Objects.
Context {num kwargs : Type}.
Context `{!Numeric num, !NslrHmm num kwargs, !Remodnav num kwargs,
          !RemodnavRecords num kwargs, !Utils num}.

(** State that outlives a call: the module's names and the trace of what
    calls did, the event records, the texts in the [__warningregistry__] of
    the module, and the warnings shown so far. *)
Record objects := {
  o_world : @world num kwargs;
  o_records : store num;
  o_registry : gset string;
  o_shown : list string
}.

Definition set_world (w : @world num kwargs) (s : objects) : objects :=
  {| o_world := w; o_records := o_records s;
     o_registry := o_registry s; o_shown := o_shown s |}.

Definition set_records (h : store num) (s : objects) : objects :=
  {| o_world := o_world s; o_records := h;
     o_registry := o_registry s; o_shown := o_shown s |}.

Definition MS (A : Type) : Type := objects → objects * result A.

#[global] Instance MS_ret : MRet MS := λ A a s, (s, Ok a).
#[global] Instance MS_bind : MBind MS := λ A B f m s,
  match m s with
  | (s', Ok a) => f a s'
  | (s', Err e) => (s', Err e)
  end.

(** A step that touches the module's names and the trace only. *)
Definition on_world {A} (m : @M num kwargs A) : MS A := λ s,
  let '(w', r) := m (o_world s) in (set_world w' s, r).

(** A step that reads the records. *)
Definition reading {A} (f : store num → result A) : MS A := λ s,
  (s, f (o_records s)).

(** The record an identity denotes. *)
Definition deref (h : store num) (r : nat) : result (event num) :=
  match h !! r with
  | Some ev => Ok ev
  | None => Err (Raised "ReferenceError")
  end.

Definition read_record (r : nat) : MS (event num) := reading (λ h, deref h r).

Definition write_record (r : nat) (ev : event num) : MS unit := λ s,
  (set_records (<[r := ev]> (o_records s)) s, Ok tt).

(** The backend's call: whatever it does to the records stays done when it
    raises. *)
Definition call_clf (clf : classifier) (data_preproc : preprocessed)
    (process_kwargs : kwargs) : MS (list nat) := λ s,
  let '(h', r) := clf_call_records clf data_preproc process_kwargs (o_records s) in
  (set_records h' s, r).

(** [warnings.warn(message)] under the default action of the warnings
    module, the one in force for a UserWarning when no filter is installed:
    a text is shown the first time it is given from a line, and the registry
    of the module that gave it keeps it from being shown again.  The trace
    records that the warning was given. *)
Definition warnings_warn (message : string) : MS unit := λ s,
  let s := set_world (warn message (o_world s)).1 s in
  if decide (message ∈ o_registry s) then (s, Ok tt)
  else
    ({| o_world := o_world s; o_records := o_records s;
        o_registry := {[message]} ∪ o_registry s;
        o_shown := o_shown s ++ [message] |}, Ok tt).

(** One turn of the loop of lines 169 to 171 on records: [events[i]] is the
    record itself, and both updates are written to it. *)
Definition realign_record_at (times : list num) (events : list nat) (i : nat)
    : MS unit :=
  r ← on_world (lift (getindex events i));
  ev ← read_record r;
  t0 ← on_world (lift (getindex times 0));
  write_record r {| start_time := np_add (start_time ev) t0;
                    end_time := end_time ev; label := label ev |};;
  r ← on_world (lift (getindex events i));
  ev ← read_record r;
  t0 ← on_world (lift (getindex times 0));
  write_record r {| start_time := start_time ev;
                    end_time := np_add (end_time ev) t0; label := label ev |}.

Fixpoint for_range_records (body : nat → MS unit) (range : list nat) : MS unit :=
  match range with
  | [] => mret tt
  | i :: range' => body i;; for_range_records body range'
  end.

Definition realign_records (times : list num) (events : list nat) : MS unit :=
  for_range_records (realign_record_at times events) (seq 0 (length events)).

(** [classify_remodnav] with the events as records and the warning under
    the default action. *)
Definition classify_remodnav_records (x y : list num) (time : time_arg)
    (px2deg : num) (return_discrete return_orig_output simple_output : bool)
    (classifier_kwargs preproc_kwargs process_kwargs : kwargs)
    : MS (list num * list pyval * option (list nat)) :=
  times ← on_world (lift (time_array_of time x));
  (if np_gt (np_std (diffs times)) tolerance
   then warnings_warn irregular_sampling_message else mret tt);;
  let sampling_rate := np_recip (np_mean (diffs times)) in
  data ← on_world (lift (columns x y));
  on_world (emit (Call_EyegazeClassifier px2deg sampling_rate classifier_kwargs));;
  clf ← on_world (lift (EyegazeClassifier px2deg sampling_rate classifier_kwargs));
  on_world (emit (Call_preproc data preproc_kwargs));;
  data_preproc ← on_world (lift (preproc clf data preproc_kwargs));
  on_world (emit (Call_clf process_kwargs));;
  events ← call_clf clf data_preproc process_kwargs;
  realign_records times events;;
  class_dict ← on_world (read_global
    (if simple_output then g_REMODNAV_SIMPLE else g_REMODNAV_CLASSES));
  rows ← reading (λ h, comprehension
    (λ r, ev ← deref h r; c ← getitem class_dict (label ev);
          Ok (start_time ev, PyStr c))
    events);
  '(segments, classes) ← on_world (lift (unpack_two (zip_star rows)));
  '(segments, classes) ←
    (if return_discrete then mret (segments, classes)
     else on_world (lift (discrete_to_continuous times segments classes)));
  if return_orig_output then mret (segments, classes, Some events)
  else mret (segments, classes, None).

(** [classify_nslr_hmm] assigns to no object it did not create and gives no
    warning: on objects it is the adapter on values. *)
Definition classify_nslr_hmm_records (x y : list num) (time : time_arg)
    (return_discrete return_orig_output : bool) (nslr_kwargs : kwargs)
    : MS (list num * list string * option segment_dict) :=
  on_world (classify_nslr_hmm x y time return_discrete return_orig_output nslr_kwargs).

(** Lines 168 to 185 on records, from the identities the backend
    returned. *)
Definition remodnav_after_backend_records (times : list num) (events : list nat)
    (return_discrete return_orig_output simple_output : bool)
    : MS (list num * list pyval * option (list nat)) :=
  realign_records times events;;
  class_dict ← on_world (read_global
    (if simple_output then g_REMODNAV_SIMPLE else g_REMODNAV_CLASSES));
  rows ← reading (λ h, comprehension
    (λ r, ev ← deref h r; c ← getitem class_dict (label ev);
          Ok (start_time ev, PyStr c))
    events);
  '(segments, classes) ← on_world (lift (unpack_two (zip_star rows)));
  '(segments, classes) ←
    (if return_discrete then mret (segments, classes)
     else on_world (lift (discrete_to_continuous times segments classes)));
  if return_orig_output then mret (segments, classes, Some events)
  else mret (segments, classes, None).

(** The events that a list of identities denotes in a store. *)
Definition records_of (h : store num) (events : list nat) : option (list (event num)) :=
  mapM (λ r, h !! r) events.

(** What the caller finds in the triple a run returned: the events are the
    records as they are when the run ends. *)
Definition observed
    (run : objects * result (list num * list pyval * option (list nat)))
    : result (list num * list pyval * option (list (event num))) :=
  match run.2 with
  | Ok (segments, classes, Some events) =>
      match records_of (o_records run.1) events with
      | Some evs => Ok (segments, classes, Some evs)
      | None => Err (Raised "ReferenceError")
      end
  | Ok (segments, classes, None) => Ok (segments, classes, None)
  | Err e => Err e
  end.

(** The texts of the warnings a call of [classify_remodnav] gives. *)
Definition warnings_given (x : list num) (time : time_arg) : list string :=
  match time_array_of time x with
  | Ok times =>
      if np_gt (np_std (diffs times)) tolerance
      then [irregular_sampling_message] else []
  | Err _ => []
  end.

(** The backend creates its records anew on every call: the identities it
    returns do not repeat and were not in the store, the records hold the
    events of [clf_call], and the records that were in the store stay as
    they are; when [clf_call] raises, so does the call on records. *)
Definition returns_new_records : Prop :=
  ∀ clf data_preproc kw (h : store num),
    match clf_call clf data_preproc kw with
    | Ok events =>
        ∃ h' ids,
          clf_call_records clf data_preproc kw h = (h', Ok ids) ∧
          NoDup ids ∧
          Forall (λ r, h !! r = None) ids ∧
          Forall2 (λ r ev, h' !! r = Some ev) ids events ∧
          (∀ r, r ∉ ids → h' !! r = h !! r)
    | Err e => clf_call_records clf data_preproc kw h = (h, Err e)
    end.

End Objects.

(** ** The segment representation converter *)

(** The two converters of [cateye/utils.py], written after the
    specification's section on the segment representation converter. *)
Module UtilsSpec.

Section Positions.
(** Breakpoint positions: sample indices or time values, with their
    order. *)
Context {P : Type} (le lt : P → P → bool).

(** Modelled from the spec: the check that breakpoints are strictly
    increasing, which [discrete_to_continuous] requires. *)
Fixpoint strictly_increasing (l : list P) : bool :=
  match l with
  | [] => true
  | a :: rest =>
      match rest with
      | [] => true
      | b :: _ => lt a b && strictly_increasing rest
      end
  end.

(** Modelled from the spec: the label of the sample at position [p].
    Breakpoint [i] covers the positions in
    [[breakpoints[i], breakpoints[i+1])], and the last breakpoint's label
    extends to the end; a sample that no breakpoint covers keeps the
    sentinel for unclassified samples. *)
Fixpoint covering (bps : list (P * pyval)) (p : P) : pyval :=
  match bps with
  | [] => PyNone
  | (b, l) :: rest =>
      match rest with
      | [] => if le b p then l else PyNone
      | (b', _) :: _ => if le b p && lt p b' then l else covering rest p
      end
  end.

(** Modelled from the spec: the scan of [continuous_to_discrete], which
    emits one breakpoint each time the label differs from the previous
    sample's; [prev] is [None] at the first sample, which always starts a
    segment. *)
Fixpoint changes (prev : option pyval) (samples : list (P * pyval))
    : list (P * pyval) :=
  match samples with
  | [] => []
  | (p, l) :: rest =>
      if decide (prev = Some l) then changes (Some l) rest
      else (p, l) :: changes (Some l) rest
  end.
End Positions.

Definition Qlt_bool (a b : Q) : bool := negb (Qle_bool b a).

(** Breakpoints are supplied either as sample indices or as times. *)
Inductive breakpoints :=
  | Indices (l : list nat)
  | Times (l : list Q).

Definition MalformedSegmentationError : exn := Raised "MalformedSegmentationError".
Definition MalformedInputError : exn := Raised "MalformedInputError".

(** Modelled from the spec: [discrete_to_continuous(time_vector,
    breakpoints, labels)], missing from the sources.  It requires strictly
    increasing breakpoints and as many labels as breakpoints, resolves
    breakpoints given as times against [time_vector], and returns one label
    per sample next to the time vector. *)
Definition discrete_to_continuous (time_vector : list Q) (bps : breakpoints)
    (labels : list pyval) : result (list Q * list pyval) :=
  match bps with
  | Indices l =>
      if bool_decide (length l = length labels) && strictly_increasing Nat.ltb l
      then Ok (time_vector,
               map (covering Nat.leb Nat.ltb (zip l labels))
                   (seq 0 (length time_vector)))
      else Err MalformedSegmentationError
  | Times l =>
      if bool_decide (length l = length labels) && strictly_increasing Qlt_bool l
      then Ok (time_vector,
               map (covering Qle_bool Qlt_bool (zip l labels)) time_vector)
      else Err MalformedSegmentationError
  end.

(** Modelled from the spec: [continuous_to_discrete(time_vector,
    continuous_labels)], missing from the sources; [as_times] is the
    requested output mode (positions reported as times or as indices). *)
Definition continuous_to_discrete (as_times : bool) (time_vector : list Q)
    (continuous_labels : list pyval) : result (breakpoints * list pyval) :=
  if bool_decide (length time_vector = length continuous_labels) then
    if as_times then
      let segs := changes None (zip time_vector continuous_labels) in
      Ok (Times (segs.*1), segs.*2)
    else
      let segs :=
        changes None (zip (seq 0 (length continuous_labels)) continuous_labels) in
      Ok (Indices (segs.*1), segs.*2)
  else Err MalformedInputError.

(** [continuous_to_discrete] followed by [discrete_to_continuous] over the
    same time vector. *)
Definition round_trip (as_times : bool) (time_vector : list Q)
    (continuous_labels : list pyval) : result (list Q * list pyval) :=
  '(bps, labels) ← continuous_to_discrete as_times time_vector continuous_labels;
  discrete_to_continuous time_vector bps labels.

End UtilsSpec.

(** ** Instances over exact rationals *)

(** Timestamps and rates as rationals in lowest terms.  Every operation is
    exact except the square root inside [np.std], cut off after fifteen
    decimals; where numpy would produce [inf] or [nan] (a division by zero,
    the mean of nothing) the rational operations give [0]. *)
Module Exact.

Definition Qsum (l : list Q) : Q := foldr Qplus 0%Q l.

Definition mean (l : list Q) : Q :=
  Qred (Qsum l / inject_Z (Z.of_nat (length l))).

Definition variance (l : list Q) : Q :=
  mean (map (λ v, (v - mean l) * (v - mean l))%Q l).

Definition sqrt15 (v : Q) : Q :=
  Qred (Z.sqrt (Qfloor (v * inject_Z (10 ^ 30))) # 10 ^ 15).

(** [np.arange]: [ceil((stop - start) / step)] values [start + k * step].
    numpy takes the quotient and the ceiling in doubles, so the number of
    values is numpy's where [step] and the quotient are exact in binary
    floating point, as for the rate 2 (step 0.5). *)
Definition arange (start stop : nat) (step : Q) : list Q :=
  let first := inject_Z (Z.of_nat start) in
  let last := inject_Z (Z.of_nat stop) in
  map (λ k, Qred (first + inject_Z (Z.of_nat k) * step))
      (seq 0 (Z.to_nat (Qceiling ((last - first) / step)))).

#[global] Instance numeric : Numeric Q := {|
  py_recip r := if Qeq_bool r 0 then None else Some (Qred (/ r));
  np_recip v := Qred (/ v);
  np_add a b := Qred (a + b);
  np_sub a b := Qred (a - b);
  np_mean := mean;
  np_std l := sqrt15 (variance l);
  np_gt a b := negb (Qle_bool a b);
  np_arange := arange;
  tolerance := 1 # 100000
|}.

(** The converter of the specification, given breakpoints as times. *)
#[global] Instance utils : Utils Q := {|
  discrete_to_continuous times segs classes :=
    UtilsSpec.discrete_to_continuous times (UtilsSpec.Times segs) classes
|}.

(** The class ids of the [nslr_hmm] package. *)
Definition ids : nslr_ids :=
  {| FIXATION := 1; SACCADE := 2; PSO := 3; SMOOTH_PURSUIT := 4 |}.

(** A backend that answers every call with the same result. *)
Definition fixed_nslr
    (out : result (list pyval * Segmentation Q * list pyval)) : NslrHmm Q unit :=
  {| nslr_hmm_ids := ids; classify_gaze _ _ _ := out |}.

Definition fixed_remodnav (out : result (list (event Q))) : Remodnav Q unit :=
  {| classifier := unit; preprocessed := unit;
     EyegazeClassifier _ _ _ := Ok tt;
     preproc _ _ _ := Ok tt;
     clf_call _ _ _ := out |}.

Definition start_world : @world Q unit :=
  {| w_globals := module_globals ids; w_trace := [] |}.

(** *** Recordings and backend answers used as examples *)

(** Three samples taken every tenth of a second from second 10 on. *)
Definition times_from_10 : list Q := [10; 101 # 10; 51 # 5]%Q.

(** The irregular time vector [0, 1, 2, 3.5, 4]. *)
Definition irregular_times : list Q := [0; 1; 2; 7 # 2; 4]%Q.

Definition three_samples : list Q := [0; 0; 0]%Q.
Definition five_samples : list Q := [0; 0; 0; 0; 0]%Q.

(** A fixation then a saccade, in the backend's local time from 0. *)
Definition local_events : list (event Q) :=
  [ {| start_time := 0%Q; end_time := (1 # 10)%Q; label := PyStr "FIXA" |};
    {| start_time := (1 # 10)%Q; end_time := (1 # 5)%Q; label := PyStr "SACC" |} ].

(** The same with a code that is in no table. *)
Definition events_with_unknown_code : list (event Q) :=
  [ {| start_time := 0%Q; end_time := (1 # 10)%Q; label := PyStr "FIXA" |};
    {| start_time := (1 # 10)%Q; end_time := (1 # 5)%Q; label := PyStr "BLNK" |} ].

(** One segment over samples 0 to 2 of a recording that starts at second
    10. *)
Definition one_segment_from_10 : list pyval * Segmentation Q * list pyval :=
  ([PyInt 1; PyInt 1; PyInt 1],
   {| segments := [ {| seg_i := (0, 3); seg_t := (10, 51 # 5)%Q |} ] |},
   [PyInt 1]).


(** Two segments, the second with the class id 99. *)
Definition segments_with_unknown_id : list pyval * Segmentation Q * list pyval :=
  ([PyInt 1; PyInt 99; PyInt 99],
   {| segments := [ {| seg_i := (0, 1); seg_t := (0, 1)%Q |};
                    {| seg_i := (1, 3); seg_t := (1, 2)%Q |} ] |},
   [PyInt 1; PyInt 99]).

Definition remodnav_call (events : result (list (event Q))) (time : @time_arg Q)
    (x : list Q) (return_discrete return_orig_output simple_output : bool)
    : @world Q unit * result (list Q * list pyval * option (list (event Q))) :=
  classify_remodnav (Remodnav0 := fixed_remodnav events)
    x x time 1%Q return_discrete return_orig_output simple_output tt tt tt
    start_world.

Definition nslr_call (out : result (list pyval * Segmentation Q * list pyval))
    (time : @time_arg Q) (x : list Q) (return_discrete return_orig_output : bool)
    : @world Q unit * result (list Q * list string * option (@segment_dict Q)) :=
  classify_nslr_hmm (NslrHmm0 := fixed_nslr out)
    x x time return_discrete return_orig_output tt start_world.

End Exact.


(** ** Further backends and answers used as examples *)

Module Cases.

Definition BackendError : exn := Raised "RuntimeError".

(** A REMoDNaV stand-in that raises at construction ([stage] 0), in
    [preproc] ([stage] 1) or when called (any other [stage]). *)
Definition raising_remodnav (stage : nat) : Remodnav Q unit :=
  {| classifier := unit; preprocessed := unit;
     EyegazeClassifier _ _ _ := if decide (stage = 0) then Err BackendError else Ok tt;
     preproc _ _ _ := if decide (stage = 1) then Err BackendError else Ok tt;
     clf_call _ _ _ := Err BackendError |}.

(** Two segments with a single per-segment class id. *)
Definition unpaired_answer : list pyval * Segmentation Q * list pyval :=
  ([PyInt 1; PyInt 1; PyInt 1],
   {| segments := [ {| seg_i := (0, 1); seg_t := (0, 1)%Q |};
                    {| seg_i := (1, 3); seg_t := (1, 2)%Q |} ] |},
   [PyInt 1]).

(** Three samples taken every quarter of a second from second 10 on; the
    timestamps, their differences and the rate 4 are exact in doubles. *)
Definition regular_times : list Q := [10; 41 # 4; 21 # 2]%Q.


(** One irregular saccade. *)
Definition irregular_saccade : list (event Q) :=
  [ {| start_time := 0%Q; end_time := (1 # 10)%Q; label := PyStr "ISAC" |} ].

(** One segment that starts at the second of the samples at seconds 0, 1
    and 2. *)
Definition late_segment : list pyval * Segmentation Q * list pyval :=
  ([PyInt 2; PyInt 2; PyInt 2],
   {| segments := [ {| seg_i := (1, 3); seg_t := (1, 2)%Q |} ] |},
   [PyInt 2]).


(** A fixation then a saccade of a quarter of a second each, in the
    backend's local time from 0. *)
Definition local_quarters : list (event Q) :=
  [ {| start_time := 0%Q; end_time := (1 # 4)%Q; label := PyStr "FIXA" |};
    {| start_time := (1 # 4)%Q; end_time := (1 # 2)%Q; label := PyStr "SACC" |} ].

(** Five samples at irregular intervals from second 10 on. *)
Definition late_irregular_times : list Q := [10; 11; 12; 27 # 2; 14]%Q.

(** A REMoDNaV stand-in that creates a record for each event of [clf_call],
    under identities the store does not use. *)
Definition creating (R : Remodnav Q unit) : RemodnavRecords Q unit :=
  {| clf_call_records clf data_preproc kw h :=
       match clf_call clf data_preproc kw with
       | Ok events =>
           let ids := fresh_list (length events) (dom h) in
           (list_to_map (zip ids events) ∪ h, Ok ids)
       | Err e => (h, Err e)
       end |}.

(** A REMoDNaV stand-in that keeps its event records and returns the same
    ones on every call. *)
Definition keeping (R : Remodnav Q unit) (ids : list nat) : RemodnavRecords Q unit :=
  {| clf_call_records _ _ _ h := (h, Ok ids) |}.

(** The records 0 and 1 hold the fixation and the saccade of
    [local_quarters]; no warning has been given yet. *)
Definition kept_records : @objects Q unit :=
  {| o_world := Exact.start_world;
     o_records := list_to_map (zip [0; 1] local_quarters);
     o_registry := ∅;
     o_shown := [] |}.

End Cases.

(** * Properties *)

(** ** Comprehensions and table lookups *)

Section Comprehension.
Context {A B : Type} (f : A → result B).

Lemma comprehension_Ok_inv l bs :
  comprehension f l = Ok bs → Forall2 (λ a b, f a = Ok b) l bs.
Proof.
  revert bs. induction l as [|a l IH]; intros bs; simpl.
  - intros [= <-]. constructor.
  - destruct (f a) as [b|e] eqn:Hfa; [|discriminate].
    destruct (comprehension f l) as [bs'|e]; [|discriminate].
    intros [= <-]. constructor; auto.
Qed.

Lemma comprehension_Ok l bs :
  Forall2 (λ a b, f a = Ok b) l bs → comprehension f l = Ok bs.
Proof.
  induction 1 as [|a b l bs Hab _ IH]; simpl; [done|].
  by rewrite Hab, IH.
Qed.


Lemma comprehension_length l bs :
  comprehension f l = Ok bs → length bs = length l.
Proof.
  intros H%comprehension_Ok_inv. symmetry. by eapply Forall2_length.
Qed.
End Comprehension.

Lemma getitem_Ok d k v : getitem d k = Ok v ↔ d !! k = Some v.
Proof. unfold getitem. destruct (d !! k); split; congruence. Qed.


(** ** The re-alignment loop *)

Section Realign.
Context {num : Type} `{!Numeric num}.

Lemma realign_at_Ok t0 ts (events : list (event num)) i ev :
  events !! i = Some ev →
  realign_at (t0 :: ts) events i = Ok (<[i := realigned t0 ev]> events).
Proof.
  intros Hi. unfold realign_at, getindex. rewrite Hi. simpl.
  rewrite list_lookup_insert_eq by (eapply lookup_lt_Some; eassumption). simpl.
  by rewrite list_insert_insert_eq.
Qed.

Lemma for_range_realign t0 ts (before rest : list (event num)) :
  for_range (realign_at (t0 :: ts)) (seq (length before) (length rest)) (before ++ rest)
  = Ok (before ++ map (realigned t0) rest).
Proof.
  revert before. induction rest as [|ev rest IH]; intros before; simpl; [done|].
  rewrite (realign_at_Ok _ _ _ _ ev) by (apply list_lookup_middle; reflexivity).
  rewrite insert_app_r_alt by lia.
  replace (length before - length before) with 0 by lia. simpl.
  specialize (IH (before ++ [realigned t0 ev])).
  rewrite length_app, <- (assoc_L (++)) in IH. simpl in IH.
  replace (length before + 1) with (S (length before)) in IH by lia.
  by rewrite IH, <- (assoc_L (++)).
Qed.

(** With a first timestamp the loop shifts every event by it. *)
Lemma realign_cons t0 ts (events : list (event num)) :
  realign (t0 :: ts) events = Ok (map (realigned t0) events).
Proof. apply (for_range_realign t0 ts []). Qed.

(** Without events the loop body never runs. *)
Lemma realign_nil times : realign times ([] : list (event num)) = Ok [].
Proof. done. Qed.

(** [times[0]] fails on an empty time array as soon as there is an event. *)
Lemma realign_empty_times ev (events : list (event num)) :
  realign [] (ev :: events) = Err IndexError.
Proof. done. Qed.

Lemma realign_Ok_inv times (events events' : list (event num)) :
  realign times events = Ok events' →
  (events = [] ∧ events' = []) ∨
  (∃ t0, times !! 0 = Some t0 ∧ events' = map (realigned t0) events).
Proof.
  destruct times as [|t0 ts].
  - destruct events; [intros [= <-]; by left|discriminate].
  - rewrite realign_cons. intros [= <-]. right. by exists t0.
Qed.
End Realign.

(** ** The adapters, phase by phase *)

Section Decompose.
Context {num kwargs : Type}.
Context `{!Numeric num, !NslrHmm num kwargs, !Remodnav num kwargs, !Utils num}.
Implicit Types w : @world num kwargs.

Lemma after_nil w : after w [] = w.
Proof. destruct w. unfold after. simpl. by rewrite (right_id_L [] (++)). Qed.

Lemma after_after w e1 e2 : after (after w e1) e2 = after w (e1 ++ e2).
Proof. unfold after. simpl. by rewrite (assoc_L (++)). Qed.

Lemma classify_remodnav_unfold x y time px2deg rd ro so ckw pkw rkw w :
  classify_remodnav x y time px2deg rd ro so ckw pkw rkw w =
  match time_array_of time x with
  | Err e => (w, Err e)
  | Ok times =>
    let rate := effective_sampling_rate times in
    let warned := irregularity_warning times in
    match columns x y with
    | Err e => (after w warned, Err e)
    | Ok data =>
      match EyegazeClassifier px2deg rate ckw with
      | Err e => (after w (warned ++ [Call_EyegazeClassifier px2deg rate ckw]), Err e)
      | Ok clf =>
        match preproc clf data pkw with
        | Err e =>
            (after w (warned ++ [Call_EyegazeClassifier px2deg rate ckw;
                                 Call_preproc data pkw]), Err e)
        | Ok data_preproc =>
            (after w (warned ++ [Call_EyegazeClassifier px2deg rate ckw;
                                 Call_preproc data pkw; Call_clf rkw]),
             match clf_call clf data_preproc rkw with
             | Err e => Err e
             | Ok events =>
                 remodnav_after_backend (w_globals w) times events rd ro so
             end)
        end
      end
    end
  end.
Proof.
  unfold classify_remodnav, remodnav_after_backend, irregularity_warning,
    effective_sampling_rate.
  unfold mbind, M_bind, result_bind, mret, M_ret, lift, warn, emit, read_global.
  destruct (time_array_of time x) as [times|e]; [|done].
  set (rate := np_recip (np_mean (diffs times))).
  destruct w as [g tr]. unfold after. simpl.
  destruct (np_gt (np_std (diffs times)) tolerance); simpl;
    rewrite ?(right_id_L [] (++));
    (destruct (columns x y) as [data|e]; [|reflexivity]);
    (destruct (EyegazeClassifier px2deg rate ckw) as [clf|e]; simpl;
      [|rewrite <- ?(assoc_L (++)); reflexivity]);
    (destruct (preproc clf data pkw) as [dp|e]; simpl;
      [|rewrite <- ?(assoc_L (++)); reflexivity]);
    rewrite <- ?(assoc_L (++)); simpl; f_equal;
    (destruct (clf_call clf dp rkw) as [events|e]; [|reflexivity]);
    (destruct (realign times events) as [events'|e]; simpl; [|reflexivity]);
    destruct so; simpl;
    match goal with |- context [comprehension ?f ?l] =>
      destruct (comprehension f l) as [rows|e]; simpl; [|reflexivity] end;
    (destruct (unpack_two (zip_star rows)) as [[segs cls]|e]; simpl; [|reflexivity]);
    destruct rd; simpl; try (destruct ro; reflexivity);
    (destruct (discrete_to_continuous times segs cls) as [[segs' cls']|e]; simpl;
      [|reflexivity]); destruct ro; reflexivity.
Qed.

Lemma classify_nslr_hmm_unfold x y time rd ro kw w :
  classify_nslr_hmm x y time rd ro kw w =
  match columns x y with
  | Err e => (w, Err e)
  | Ok gaze_array =>
    match time_array_of time x with
    | Err e => (w, Err e)
    | Ok time_array =>
        (after w [Call_classify_gaze time_array gaze_array kw],
         match classify_gaze time_array gaze_array kw with
         | Err e => Err e
         | Ok out => nslr_after_backend (w_globals w) time_array out rd ro
         end)
    end
  end.
Proof.
  unfold classify_nslr_hmm, nslr_after_backend.
  unfold mbind, M_bind, result_bind, mret, M_ret, lift, emit, read_global.
  destruct (columns x y) as [gaze_array|e]; [|reflexivity].
  destruct (time_array_of time x) as [time_array|e]; [|reflexivity].
  destruct w as [g tr]. unfold after. simpl. f_equal.
  destruct (classify_gaze time_array gaze_array kw) as [[[sc seg] cls]|e];
    [|reflexivity].
  simpl. destruct rd; simpl.
  - destruct (comprehension (getitem (g_CLASSES g)) cls); simpl; [|reflexivity].
    destruct ro; reflexivity.
  - destruct (discrete_to_continuous time_array (nslr_breakpoints seg) cls)
      as [[segs' cls']|e]; simpl; [|reflexivity].
    destruct (comprehension (getitem (g_CLASSES g)) cls'); simpl; [|reflexivity].
    destruct ro; reflexivity.
Qed.
End Decompose.

(** ** What the adapters do with a backend's answer *)

Section AfterBackend.
Context {num kwargs : Type}.
Context `{!Numeric num, !NslrHmm num kwargs, !Remodnav num kwargs, !Utils num}.
Implicit Types w : @world num kwargs.

Lemma unpack_zip_star {A B} (rows : list (A * B)) :
  unpack_two (zip_star rows) =
  match rows with
  | [] => Err ValueError
  | _ :: _ => Ok (rows.*1, rows.*2)
  end.
Proof. by destruct rows. Qed.

Lemma remodnav_rows d (events : list (event num)) rows :
  comprehension (λ ev, c ← getitem d (label ev); Ok (start_time ev, PyStr c)) events
    = Ok rows ↔
  ∃ cs, Forall2 (λ ev c, d !! label ev = Some c) events cs ∧
        rows = zip (start_time <$> events) (PyStr <$> cs).
Proof.
  split.
  - intros H%comprehension_Ok_inv. induction H as [|ev row events rows Hrow _ IH].
    + by exists [].
    + destruct IH as (cs & Hcs & ->).
      unfold mbind, result_bind in Hrow.
      destruct (getitem d (label ev)) as [c|] eqn:Hc; [|done].
      injection Hrow as <-. apply getitem_Ok in Hc.
      exists (c :: cs). split; [by constructor|done].
  - intros (cs & Hcs & ->). apply comprehension_Ok.
    induction Hcs as [|ev c events cs Hc _ IH]; simpl; constructor; [|done].
    apply getitem_Ok in Hc. unfold mbind, result_bind. by rewrite Hc.
Qed.

Lemma remodnav_after_backend_Ok_inv g times (events : list (event num))
    rd ro so segs classes orig :
  remodnav_after_backend g times events rd ro so = Ok (segs, classes, orig) →
  ∃ t0 cs,
    times !! 0 = Some t0 ∧ events ≠ [] ∧
    Forall2 (λ ev c, class_dict_of g so !! label ev = Some c) events cs ∧
    (if rd
     then segs = map (λ ev, np_add (start_time ev) t0) events ∧
          classes = PyStr <$> cs
     else discrete_to_continuous times
            (map (λ ev, np_add (start_time ev) t0) events) (PyStr <$> cs)
          = Ok (segs, classes)) ∧
    orig = if ro then Some (map (realigned t0) events) else None.
Proof.
  unfold remodnav_after_backend, mbind, result_bind.
  destruct (realign times events) as [events'|] eqn:Hre; [|done].
  fold (class_dict_of g so).
  destruct (comprehension _ events') as [rows|] eqn:Hrows; [|done].
  rewrite unpack_zip_star.
  apply remodnav_rows in Hrows as (cs & Hcs & ->).
  destruct events' as [|ev' events'']; [done|].
  apply realign_Ok_inv in Hre as [[-> [=]]|(t0 & Ht0 & Hev)].
  assert (events ≠ []) as Hne by (by intros ->).
  revert Hcs. rewrite Hev. intros Hcs.
  assert (length (map (realigned t0) events) = length cs) as Hlen
    by (by eapply Forall2_length).
  rewrite fst_zip, snd_zip by (rewrite ?length_fmap, ?length_map in *; lia).
  assert (start_time <$> map (realigned t0) events
          = map (λ ev, np_add (start_time ev) t0) events) as ->.
  { clear. induction events; simpl; [done|]. by f_equal. }
  intros H. exists t0, cs.
  assert ((if rd
     then segs = map (λ ev, np_add (start_time ev) t0) events ∧
          classes = PyStr <$> cs
     else discrete_to_continuous times
            (map (λ ev, np_add (start_time ev) t0) events) (PyStr <$> cs)
          = Ok (segs, classes)) ∧
    orig = if ro then Some (map (realigned t0) events) else None) as [??].
  { assert (∃ row rows, zip (map (λ ev, np_add (start_time ev) t0) events)
                                 (PyStr <$> cs) = row :: rows) as (row & rows & Hz).
    { destruct events; [done|]. destruct cs; [done|]. simpl. eauto. }
    rewrite Hz in H. clear Hz.
    destruct rd; simpl in H.
    - by destruct ro; injection H as <- <- <-.
    - destruct (discrete_to_continuous _ _ _) as [[segs' cls']|]; [|done].
      by destruct ro; injection H as <- <- <-. }
  split_and!; [done|done| |done|done].
  clear -Hcs. apply Forall2_fmap_l in Hcs.
  eapply Forall2_impl; [exact Hcs|]. by intros ev c.
Qed.

Lemma remodnav_after_backend_run g t0 ts (events : list (event num)) rd ro so cs :
  events ≠ [] →
  Forall2 (λ ev c, class_dict_of g so !! label ev = Some c) events cs →
  remodnav_after_backend g (t0 :: ts) events rd ro so =
  match
    (if rd
     then Ok (map (λ ev, np_add (start_time ev) t0) events, PyStr <$> cs)
     else discrete_to_continuous (t0 :: ts)
            (map (λ ev, np_add (start_time ev) t0) events) (PyStr <$> cs))
  with
  | Ok (segs, classes) =>
      Ok (segs, classes, if ro then Some (map (realigned t0) events) else None)
  | Err e => Err e
  end.
Proof.
  intros Hne Hcs. unfold remodnav_after_backend, mbind, result_bind.
  rewrite realign_cons. fold (class_dict_of g so).
  assert (comprehension
            (λ ev, match getitem (class_dict_of g so) (label ev) with
                   | Ok c => Ok (start_time ev, PyStr c)
                   | Err e => Err e
                   end) (map (realigned t0) events)
          = Ok (zip (start_time <$> map (realigned t0) events) (PyStr <$> cs))) as ->.
  { apply (remodnav_rows (class_dict_of g so)). exists cs. split; [|done].
    apply Forall2_fmap_l. eapply Forall2_impl; [exact Hcs|]. by intros ev c. }
  rewrite unpack_zip_star.
  assert (length events = length cs) as Hlen by (by eapply Forall2_length).
  assert (start_time <$> map (realigned t0) events
          = map (λ ev, np_add (start_time ev) t0) events) as ->.
  { clear. induction events; simpl; [done|]. by f_equal. }
  assert (∃ row rows, zip (map (λ ev, np_add (start_time ev) t0) events)
                               (PyStr <$> cs) = row :: rows) as (row & rows & Hz).
  { destruct events; [done|]. destruct cs; [done|]. simpl. eauto. }
  rewrite Hz, <- Hz. clear Hz row rows.
  rewrite fst_zip, snd_zip by (rewrite ?length_fmap, ?length_map; lia).
  destruct rd; simpl.
  - by destruct ro.
  - destruct (discrete_to_continuous _ _ _) as [[segs cls]|]; [|done].
    by destruct ro.
Qed.

Lemma remodnav_after_backend_nil g times rd ro so :
  remodnav_after_backend g times ([] : list (event num)) rd ro so = Err ValueError.
Proof. done. Qed.


Lemma nslr_after_backend_Ok_inv g time_array (sc : list pyval)
    (seg : Segmentation num) (cls : list pyval) rd ro segs classes orig :
  nslr_after_backend g time_array (sc, seg, cls) rd ro = Ok (segs, classes, orig) →
  ∃ natives,
    (if rd then segs = nslr_breakpoints seg ∧ natives = cls
     else discrete_to_continuous time_array (nslr_breakpoints seg) cls
          = Ok (segs, natives)) ∧
    Forall2 (λ k c, g_CLASSES g !! k = Some c) natives classes ∧
    orig = if ro
           then Some {| sample_class := sc; segmentation := seg; seg_class := cls |}
           else None.
Proof.
  unfold nslr_after_backend, mbind, result_bind.
  destruct rd.
  - destruct (comprehension _ cls) as [cs|] eqn:Hcs; [|done].
    apply comprehension_Ok_inv in Hcs. intros H. exists cls.
    assert (Forall2 (λ k c, g_CLASSES g !! k = Some c) cls cs) as Hcs'.
    { eapply Forall2_impl; [exact Hcs|]. intros k c. by rewrite getitem_Ok. }
    by destruct ro; injection H as <- <- <-.
  - destruct (discrete_to_continuous _ _ _) as [[segs' natives]|]; [|done].
    destruct (comprehension _ natives) as [cs|] eqn:Hcs; [|done].
    apply comprehension_Ok_inv in Hcs. intros H. exists natives.
    assert (Forall2 (λ k c, g_CLASSES g !! k = Some c) natives cs) as Hcs'.
    { eapply Forall2_impl; [exact Hcs|]. intros k c. by rewrite getitem_Ok. }
    by destruct ro; injection H as <- <- <-.
Qed.

(** The labels [classify_nslr_hmm] hands to its table, and the positions
    that go with them. *)
Lemma nslr_after_backend_translate g time_array (sc : list pyval)
    (seg : Segmentation num) (cls : list pyval) (rd ro : bool) segs natives :
  (if rd then Ok (nslr_breakpoints seg, cls)
   else discrete_to_continuous time_array (nslr_breakpoints seg) cls)
  = Ok (segs, natives) →
  nslr_after_backend g time_array (sc, seg, cls) rd ro =
  match comprehension (getitem (g_CLASSES g)) natives with
  | Ok classes =>
      Ok (segs, classes,
          if ro
          then Some {| sample_class := sc; segmentation := seg; seg_class := cls |}
          else None)
  | Err e => Err e
  end.
Proof.
  intros H. unfold nslr_after_backend, mbind, result_bind. rewrite H.
  destruct (comprehension _ natives); [|done]. by destruct ro.
Qed.

End AfterBackend.

(** ** Results of whole calls *)

Section Calls.
Context {num kwargs : Type}.
Context `{!Numeric num, !NslrHmm num kwargs, !Remodnav num kwargs, !Utils num}.
Implicit Types w : @world num kwargs.

Lemma classify_remodnav_result x y time px2deg rd ro so ckw pkw rkw w :
  (classify_remodnav x y time px2deg rd ro so ckw pkw rkw w).2 =
  match remodnav_events x y time px2deg ckw pkw rkw with
  | Ok (times, events) =>
      remodnav_after_backend (w_globals w) times events rd ro so
  | Err e => Err e
  end.
Proof.
  rewrite classify_remodnav_unfold.
  unfold remodnav_events, effective_sampling_rate, mbind, result_bind.
  destruct (time_array_of time x) as [times|]; [|done]. simpl.
  destruct (columns x y) as [data|]; [|done].
  destruct (EyegazeClassifier _ _ _) as [clf|]; [|done].
  destruct (preproc _ _ _) as [dp|]; [|done]. simpl.
  by destruct (clf_call _ _ _).
Qed.

Lemma classify_nslr_hmm_result x y time rd ro kw w :
  (classify_nslr_hmm x y time rd ro kw w).2 =
  match nslr_answer x y time kw with
  | Ok (time_array, out) =>
      nslr_after_backend (w_globals w) time_array out rd ro
  | Err e => Err e
  end.
Proof.
  rewrite classify_nslr_hmm_unfold. unfold nslr_answer, mbind, result_bind.
  destruct (columns x y) as [gaze|]; [|done].
  destruct (time_array_of time x) as [time_array|]; [|done]. simpl.
  by destruct (classify_gaze _ _ _).
Qed.

(** Neither adapter assigns to a module-level name. *)
Lemma classify_remodnav_globals x y time px2deg rd ro so ckw pkw rkw w :
  w_globals (classify_remodnav x y time px2deg rd ro so ckw pkw rkw w).1 = w_globals w.
Proof.
  rewrite classify_remodnav_unfold.
  destruct (time_array_of time x) as [times|]; [|done]. simpl.
  destruct (columns x y) as [data|]; [|done].
  destruct (EyegazeClassifier _ _ _) as [clf|]; [|done].
  by destruct (preproc _ _ _) as [dp|].
Qed.

Lemma classify_nslr_hmm_globals x y time rd ro kw w :
  w_globals (classify_nslr_hmm x y time rd ro kw w).1 = w_globals w.
Proof.
  rewrite classify_nslr_hmm_unfold.
  destruct (columns x y) as [gaze|]; [|done].
  by destruct (time_array_of time x) as [time_array|].
Qed.

(** The effects of a call do not depend on the world it starts in. *)
Lemma classify_remodnav_effects x y time px2deg rd ro so ckw pkw rkw :
  ∃ effects, ∀ w,
    (classify_remodnav x y time px2deg rd ro so ckw pkw rkw w).1 = after w effects.
Proof.
  setoid_rewrite classify_remodnav_unfold.
  destruct (time_array_of time x) as [times|];
    [|by exists []; intros w; rewrite after_nil].
  simpl.
  destruct (columns x y) as [data|]; [|by eexists].
  destruct (EyegazeClassifier _ _ _) as [clf|]; [|by eexists].
  destruct (preproc _ _ _) as [dp|]; by eexists.
Qed.

Lemma classify_nslr_hmm_effects x y time rd ro kw :
  ∃ effects, ∀ w, (classify_nslr_hmm x y time rd ro kw w).1 = after w effects.
Proof.
  setoid_rewrite classify_nslr_hmm_unfold.
  destruct (columns x y) as [gaze|];
    [|by exists []; intros w; rewrite after_nil].
  destruct (time_array_of time x) as [time_array|];
    [|by exists []; intros w; rewrite after_nil].
  by eexists.
Qed.
End Calls.

(** ** The tables *)



(** ** The adapters' claims *)

Section AdapterClaims.
Context {num kwargs : Type}.
Context `{!Numeric num, !NslrHmm num kwargs, !Remodnav num kwargs, !Utils num}.
Implicit Types w : @world num kwargs.

(** C2.  With an explicit time vector whose first entry is [t0],
    [classify_remodnav] adds [t0] to the start and to the end time of every
    event the backend returned before it extracts anything.  In discrete
    mode a backend answer of one or more events with known labels makes the
    call return, as breakpoints, the backend's local start times plus [t0];
    and whenever a call returns, its breakpoints are these sums: they are
    the returned segments in discrete mode and what the converter receives
    otherwise.  The events handed out with [return_orig_output] are the
    shifted ones. *)
Theorem classify_remodnav_realigns x y ts px2deg (rd ro so : bool) ckw pkw rkw w :
  (∀ t0 events cs,
     ts !! 0 = Some t0 →
     remodnav_events x y (TimeArray ts) px2deg ckw pkw rkw = Ok (ts, events) →
     events ≠ [] →
     Forall2 (λ ev c, class_dict_of (w_globals w) so !! label ev = Some c) events cs →
     (classify_remodnav x y (TimeArray ts) px2deg true ro so ckw pkw rkw w).2
     = Ok (map (λ ev, np_add (start_time ev) t0) events, PyStr <$> cs,
           if ro
           then Some (map (λ ev, {| start_time := np_add (start_time ev) t0;
                                    end_time := np_add (end_time ev) t0;
                                    label := label ev |}) events)
           else None)) ∧
  (∀ w' segs classes orig,
     classify_remodnav x y (TimeArray ts) px2deg rd ro so ckw pkw rkw w
       = (w', Ok (segs, classes, orig)) →
     ∃ t0 events,
       ts !! 0 = Some t0 ∧
       remodnav_events x y (TimeArray ts) px2deg ckw pkw rkw = Ok (ts, events) ∧
       (if rd
        then segs = map (λ ev, np_add (start_time ev) t0) events
        else ∃ cs, discrete_to_continuous ts
                     (map (λ ev, np_add (start_time ev) t0) events) cs
                   = Ok (segs, classes)) ∧
       (if ro
        then orig = Some (map (λ ev, {| start_time := np_add (start_time ev) t0;
                                        end_time := np_add (end_time ev) t0;
                                        label := label ev |}) events)
        else orig = None)).
Proof.
  split.
  - intros t0 events cs Ht0 Hev Hne Hcs.
    destruct ts as [|t0' ts']; [done|]. injection Ht0 as ->.
    rewrite classify_remodnav_result, Hev.
    by rewrite (remodnav_after_backend_run _ _ _ _ _ _ _ cs Hne Hcs).
  - intros w' segs classes orig Hcall.
    pose proof (classify_remodnav_result x y (TimeArray ts) px2deg rd ro so
                  ckw pkw rkw w) as Hres.
    rewrite Hcall in Hres. simpl in Hres. symmetry in Hres.
    destruct (remodnav_events _ _ _ _ _ _ _) as [[times events]|] eqn:Hev; [|done].
    assert (times = ts) as ->.
    { revert Hev. unfold remodnav_events, mbind, result_bind. simpl.
      destruct (columns x y); [|done].
      destruct (EyegazeClassifier _ _ _); [|done].
      destruct (preproc _ _ _); [|done].
      destruct (clf_call _ _ _); [|done]. by intros [= -> _]. }
    apply remodnav_after_backend_Ok_inv in Hres
      as (t0 & cs & Ht0 & _ & _ & Hrd & Horig).
    exists t0, events. split_and!; [done|done| |].
    + destruct rd; [by destruct Hrd|by eauto].
    + by destruct ro.
Qed.

(** C10.  When the backend returns no event, [classify_remodnav] raises
    ValueError where it unpacks the extracted columns; and a call that
    returns was given at least one event, and in discrete mode returns as
    many segments and as many classes as there were events, so neither is
    empty. *)
Theorem classify_remodnav_needs_an_event x y time px2deg (rd ro so : bool)
    ckw pkw rkw w :
  (∀ times,
     remodnav_events x y time px2deg ckw pkw rkw = Ok (times, []) →
     (classify_remodnav x y time px2deg rd ro so ckw pkw rkw w).2 = Err ValueError) ∧
  (∀ w' segs classes orig,
     classify_remodnav x y time px2deg rd ro so ckw pkw rkw w
       = (w', Ok (segs, classes, orig)) →
     ∃ times events,
       remodnav_events x y time px2deg ckw pkw rkw = Ok (times, events) ∧
       events ≠ [] ∧
       (rd = true →
        length segs = length events ∧ length classes = length events ∧
        segs ≠ [] ∧ classes ≠ [])).
Proof.
  split.
  - intros times Hev. rewrite classify_remodnav_result, Hev.
    apply remodnav_after_backend_nil.
  - intros w' segs classes orig Hcall.
    pose proof (classify_remodnav_result x y time px2deg rd ro so
                  ckw pkw rkw w) as Hres.
    rewrite Hcall in Hres. simpl in Hres. symmetry in Hres.
    destruct (remodnav_events _ _ _ _ _ _ _) as [[times events]|]; [|done].
    apply remodnav_after_backend_Ok_inv in Hres
      as (t0 & cs & _ & Hne & Hcs & Hrd & _).
    exists times, events. split_and!; [done|done|].
    intros ->. destruct Hrd as [-> ->].
    apply Forall2_length in Hcs.
    rewrite length_map, length_fmap.
    destruct events; [done|]. destruct cs; [done|]. done.
Qed.

(** C8, as the code has it.  The breakpoints [classify_nslr_hmm] derives
    from a backend answer are the first components of the segments' [t]
    pairs, their start times: one per backend segment, in backend order.
    In discrete mode they are the returned segments. *)
Theorem nslr_breakpoints_are_start_times x y time (ro : bool) kw w
    time_array sc seg cls :
  nslr_answer x y time kw = Ok (time_array, (sc, seg, cls)) →
  length (nslr_breakpoints seg) = length (segments seg) ∧
  (∀ i s, segments seg !! i = Some s →
          nslr_breakpoints seg !! i = Some (fst (seg_t s))) ∧
  (∀ w' segs classes orig,
     classify_nslr_hmm x y time true ro kw w = (w', Ok (segs, classes, orig)) →
     segs = map (λ s, fst (seg_t s)) (segments seg)).
Proof.
  intros Hans. split_and!.
  - apply length_map.
  - intros i s Hi. unfold nslr_breakpoints.
    change (map ?f ?l) with (f <$> l). by rewrite list_lookup_fmap, Hi.
  - intros w' segs classes orig Hcall.
    pose proof (classify_nslr_hmm_result x y time true ro kw w) as Hres.
    rewrite Hcall, Hans in Hres. cbn [snd] in Hres. symmetry in Hres.
    apply nslr_after_backend_Ok_inv in Hres as (natives & [-> _] & _).
    done.
Qed.

End AdapterClaims.

Section EffectClaims.
Context {num kwargs : Type}.
Context `{N : !Numeric num, !NslrHmm num kwargs, !Remodnav num kwargs, !Utils num}.
Implicit Types w : @world num kwargs.

Lemma columns_Ok (x y : list num) :
  length x = length y → columns x y = Ok (zip x y).
Proof. intros Hlen. unfold columns. by case_decide. Qed.

(** C3.  With an explicit time vector [classify_remodnav] first gives the
    irregular-sampling warning exactly when the standard deviation of the
    consecutive differences exceeds the tolerance, and no other warning;
    it then goes on to construct the classifier with the rate
    [1 / mean(diffs)], the only rate a classifier is ever constructed with.
    What the call returns or raises is the same whatever the standard
    deviation is. *)
Theorem irregular_sampling_warns_and_proceeds x y ts px2deg (rd ro so : bool)
    ckw pkw rkw w :
  (∃ rest,
     w_trace (classify_remodnav x y (TimeArray ts) px2deg rd ro so ckw pkw rkw w).1
     = w_trace w ++
       (if np_gt (np_std (diffs ts)) tolerance
        then [Warning irregular_sampling_message] else []) ++ rest ∧
     (∀ m, Warning m ∉ rest) ∧
     (∀ p rate k, Call_EyegazeClassifier p rate k ∈ rest →
                  rate = np_recip (np_mean (diffs ts))) ∧
     (length x = length y →
      ∃ rest', rest = Call_EyegazeClassifier px2deg
                        (np_recip (np_mean (diffs ts))) ckw :: rest')) ∧
  (∀ std,
     (classify_remodnav (Numeric0 := with_std N std)
        x y (TimeArray ts) px2deg rd ro so ckw pkw rkw w).2
     = (classify_remodnav x y (TimeArray ts) px2deg rd ro so ckw pkw rkw w).2).
Proof.
  split.
  - rewrite classify_remodnav_unfold. simpl.
    unfold irregularity_warning, effective_sampling_rate.
    set (warned := if np_gt (np_std (diffs ts)) tolerance
                   then [Warning irregular_sampling_message] else []).
    set (rate := np_recip (np_mean (diffs ts))).
    assert (∀ l : list (@effect num kwargs),
      (∀ e, e ∈ l → (∀ m, e ≠ Warning m) ∧
                    (∀ p r k, e = Call_EyegazeClassifier p r k → r = rate)) →
      (∀ m, Warning m ∉ l) ∧
      (∀ p r k, Call_EyegazeClassifier p r k ∈ l → r = rate)) as Hsplit.
    { intros l Hl. split.
      - intros m Hin. by destruct (Hl _ Hin) as [Hw _]; eapply Hw.
      - intros p r k Hin. by destruct (Hl _ Hin) as [_ Hc]; eapply Hc. }
    unfold columns. case_decide as Hlen.
    + destruct (EyegazeClassifier px2deg rate ckw) as [clf|];
        [destruct (preproc clf (zip x y) pkw) as [dp|]|];
        simpl; eexists; (split; [reflexivity|]);
        (split_and!; [apply Hsplit|apply Hsplit|by eauto]);
        intros eff He; repeat (apply elem_of_cons in He as [->|He]);
        try (by apply elem_of_nil in He);
        (split; [done|by intros p r k [= _ <- _]]) || (split; done).
    + exists []. simpl. rewrite (right_id_L [] (++)).
      split_and!; [done| | |done].
      * intros m Hin. by apply elem_of_nil in Hin.
      * intros p r k Hin. by apply elem_of_nil in Hin.
  - intros std. by rewrite !classify_remodnav_result.
Qed.
End EffectClaims.

(** ** The converter of the specification *)

Section PositionFacts.
Context {P : Type} (le lt : P → P → bool).
Hypothesis le_refl : ∀ a, le a a = true.
Hypothesis lt_le : ∀ a b, lt a b = true → le a b = true.
Hypothesis lt_asym : ∀ a b, lt a b = true → lt b a = false.
Hypothesis lt_trans : ∀ a b c, lt a b = true → lt b c = true → lt a c = true.

Local Abbreviation increasing := (UtilsSpec.strictly_increasing lt).
Local Abbreviation covering := (UtilsSpec.covering le lt).
Local Abbreviation changes := UtilsSpec.changes.
Local Abbreviation below p := (Forall (λ s : P * pyval, lt p s.1 = true)).

Lemma lt_irrefl a : lt a a = false.
Proof. destruct (lt a a) eqn:H; [by apply lt_asym in H as H'; congruence|done]. Qed.

Lemma increasing_cons a (l : list P) :
  increasing (a :: l) = true ↔
  Forall (λ b, lt a b = true) l ∧ increasing l = true.
Proof.
  revert a. induction l as [|b l IH]; intros a.
  - simpl. split; [by split|done].
  - change (increasing (a :: b :: l)) with (lt a b && increasing (b :: l)).
    rewrite andb_true_iff. split.
    + intros [Hab Hinc]. split; [|done]. constructor; [done|].
      apply IH in Hinc as [Hall _].
      eapply Forall_impl; [exact Hall|]. intros c Hc. by eapply lt_trans.
    + intros [Hall Hinc]. by inversion Hall.
Qed.

Lemma changes_below p prev (samples : list (P * pyval)) :
  below p samples → below p (changes prev samples).
Proof.
  revert prev. induction samples as [|[q l] samples IH]; intros prev Hall; simpl.
  - constructor.
  - inversion Hall; subst. case_decide; [by apply IH|].
    constructor; [done|by apply IH].
Qed.

Lemma changes_increasing prev (samples : list (P * pyval)) :
  increasing (samples.*1) = true → increasing ((changes prev samples).*1) = true.
Proof.
  revert prev. induction samples as [|[q l] samples IH]; intros prev; [done|].
  rewrite fmap_cons. intros [Hall Hinc]%increasing_cons. simpl.
  case_decide; [by apply IH|].
  rewrite fmap_cons. apply increasing_cons. split; [|by apply IH].
  apply Forall_fmap. apply changes_below. by apply Forall_fmap in Hall.
Qed.

Lemma changes_lengths prev (samples : list (P * pyval)) :
  length ((changes prev samples).*1) = length ((changes prev samples).*2).
Proof. by rewrite !length_fmap. Qed.

Lemma covering_skip b l b' l' rest p :
  lt p b' = false →
  covering ((b, l) :: (b', l') :: rest) p = covering ((b', l') :: rest) p.
Proof.
  intros Hp. change (covering ((b, l) :: (b', l') :: rest) p)
    with (if le b p && lt p b' then l else covering ((b', l') :: rest) p).
  by rewrite Hp, andb_false_r.
Qed.

(** Inside a segment that started at [b0] with label [l0]: positions from
    [b0] up to the next sample keep [l0], and the samples that follow get
    their own labels back. *)
Lemma covering_changes (samples : list (P * pyval)) b0 l0 :
  below b0 samples → increasing (samples.*1) = true →
  (∀ p, le b0 p = true → below p samples →
        covering ((b0, l0) :: changes (Some l0) samples) p = l0) ∧
  map (covering ((b0, l0) :: changes (Some l0) samples)) (samples.*1) = samples.*2.
Proof.
  revert b0 l0. induction samples as [|[q l] samples IH]; intros b0 l0 Hb0 Hinc.
  - split; [|done]. intros p Hp _. simpl. by rewrite Hp.
  - rewrite fmap_cons in Hinc. apply increasing_cons in Hinc as [Hq Hinc].
    apply Forall_fmap in Hq. inversion Hb0 as [|? ? Hb0q Hb0']; subst.
    simpl in Hb0q. simpl changes. case_decide as Heq.
    + injection Heq as <-.
      destruct (IH b0 l0 Hb0' Hinc) as [IH1 IH2]. split.
      * intros p Hp Hall. inversion Hall; subst. by apply IH1.
      * rewrite !fmap_cons. cbn [map fst snd]. f_equal; [|done].
        apply IH1; [by apply lt_le|done].
    + destruct (IH q l Hq Hinc) as [IH1 IH2]. split.
      * intros p Hp Hall. inversion Hall as [|? ? Hpq _]; subst. simpl in Hpq.
        change (covering ((b0, l0) :: (q, l) :: changes (Some l) samples) p)
          with (if le b0 p && lt p q then l0
                else covering ((q, l) :: changes (Some l) samples) p).
        by rewrite Hp, Hpq.
      * rewrite !fmap_cons. cbn [map fst snd]. f_equal.
        -- rewrite covering_skip by apply lt_irrefl. by apply IH1.
        -- rewrite <- IH2. apply map_ext_in. intros p Hin.
           apply covering_skip. apply lt_asym.
           apply list_elem_of_In, list_elem_of_fmap in Hin as ([p' l'] & -> & Hin).
           by eapply (proj1 (Forall_forall _ _) Hq (p', l')).
Qed.

(** Scanning from the first sample and covering again gives every sample
    its label back. *)
Lemma covering_changes_None (samples : list (P * pyval)) :
  increasing (samples.*1) = true →
  map (covering (changes None samples)) (samples.*1) = samples.*2.
Proof.
  destruct samples as [|[q l] samples]; [done|].
  rewrite fmap_cons. intros [Hq Hinc]%increasing_cons.
  apply Forall_fmap in Hq. simpl changes.
  destruct (covering_changes samples q l Hq Hinc) as [H1 H2].
  rewrite !fmap_cons. cbn [map fst snd]. f_equal; [|done].
  by apply H1.
Qed.

(** No two consecutive breakpoints of a scan carry the same label, and the
    first differs from the label before the scan. *)
Lemma changes_adjacent prev (samples : list (P * pyval)) :
  (∀ s, changes prev samples !! 0 = Some s → prev ≠ Some s.2) ∧
  (∀ i s s', changes prev samples !! i = Some s →
             changes prev samples !! S i = Some s' → s.2 ≠ s'.2).
Proof.
  revert prev. induction samples as [|[q l] samples IH]; intros prev.
  - split; intros *; simpl; by intros [=].
  - simpl. destruct (IH (Some l)) as [IH1 IH2]. case_decide as Heq.
    + subst. split; [apply IH1|apply IH2].
    + split.
      * intros s [= <-]. done.
      * intros [|i] s s'; simpl.
        -- intros [= <-] Hs'. simpl. intros ->. by eapply IH1.
        -- apply IH2.
Qed.
End PositionFacts.

Lemma Nat_lt_laws :
  (∀ a, Nat.leb a a = true) ∧
  (∀ a b, Nat.ltb a b = true → Nat.leb a b = true) ∧
  (∀ a b, Nat.ltb a b = true → Nat.ltb b a = false) ∧
  (∀ a b c, Nat.ltb a b = true → Nat.ltb b c = true → Nat.ltb a c = true).
Proof.
  split_and!; intros *;
    rewrite ?Nat.leb_le, ?Nat.ltb_lt, ?Nat.ltb_ge; lia.
Qed.

Lemma Qlt_bool_iff a b : UtilsSpec.Qlt_bool a b = true ↔ (a < b)%Q.
Proof.
  unfold UtilsSpec.Qlt_bool. rewrite negb_true_iff.
  split.
  - intros H. apply Qnot_le_lt. intros Hle%Qle_bool_iff. congruence.
  - intros Hlt. destruct (Qle_bool b a) eqn:Hle; [|done].
    apply Qle_bool_iff in Hle. by apply Qlt_not_le in Hlt.
Qed.

Lemma Q_lt_laws :
  (∀ a, Qle_bool a a = true) ∧
  (∀ a b, UtilsSpec.Qlt_bool a b = true → Qle_bool a b = true) ∧
  (∀ a b, UtilsSpec.Qlt_bool a b = true → UtilsSpec.Qlt_bool b a = false) ∧
  (∀ a b c, UtilsSpec.Qlt_bool a b = true → UtilsSpec.Qlt_bool b c = true →
            UtilsSpec.Qlt_bool a c = true).
Proof.
  split_and!.
  - intros a. apply Qle_bool_iff, Qle_refl.
  - intros a b Hlt%Qlt_bool_iff. by apply Qle_bool_iff, Qlt_le_weak.
  - intros a b Hlt%Qlt_bool_iff.
    destruct (UtilsSpec.Qlt_bool b a) eqn:Hba; [|done].
    apply Qlt_bool_iff in Hba. exfalso.
    eapply Qlt_irrefl, Qlt_trans; eassumption.
  - intros a b c Hab%Qlt_bool_iff Hbc%Qlt_bool_iff.
    apply Qlt_bool_iff. by eapply Qlt_trans.
Qed.

Lemma seq_strictly_increasing k n :
  UtilsSpec.strictly_increasing Nat.ltb (seq k n) = true.
Proof.
  revert k. induction n as [|n IH]; intros k; [done|].
  destruct n as [|n]; [done|].
  change (UtilsSpec.strictly_increasing Nat.ltb (seq k (S (S n))))
    with (Nat.ltb k (S k) && UtilsSpec.strictly_increasing Nat.ltb (seq (S k) (S n))).
  rewrite IH, andb_true_r. apply Nat.ltb_lt. lia.
Qed.

(** C5, as the converters have it.  For a labeling [L] and a time vector
    of the same length, [continuous_to_discrete] followed by
    [discrete_to_continuous] over that time vector gives [L] back, next to
    the time vector: with breakpoints reported as indices for every time
    vector, and with breakpoints reported as times for every strictly
    increasing one. *)
Theorem round_trip_reproduces_labeling (time_vector : list Q) (L : list pyval) :
  length time_vector = length L →
  UtilsSpec.round_trip false time_vector L = Ok (time_vector, L) ∧
  (UtilsSpec.strictly_increasing UtilsSpec.Qlt_bool time_vector = true →
   UtilsSpec.round_trip true time_vector L = Ok (time_vector, L)).
Proof.
  intros Hlen.
  destruct Nat_lt_laws as (Hn1 & Hn2 & Hn3 & Hn4).
  destruct Q_lt_laws as (Hq1 & Hq2 & Hq3 & Hq4).
  unfold UtilsSpec.round_trip, UtilsSpec.continuous_to_discrete, mbind, result_bind.
  rewrite bool_decide_eq_true_2 by done. split.
  - simpl. set (samples := zip (seq 0 (length L)) L).
    assert (samples.*1 = seq 0 (length L)) as H1
      by (apply fst_zip; rewrite length_seq; lia).
    assert (samples.*2 = L) as H2 by (apply snd_zip; rewrite length_seq; lia).
    rewrite bool_decide_eq_true_2 by apply changes_lengths.
    rewrite (changes_increasing Nat.ltb Hn4)
      by (rewrite H1; apply seq_strictly_increasing).
    simpl. rewrite zip_fst_snd, Hlen, <- H1.
    rewrite (covering_changes_None Nat.leb Nat.ltb Hn1 Hn2 Hn3 Hn4)
      by (rewrite H1; apply seq_strictly_increasing).
    by rewrite H2.
  - intros Hinc. simpl. set (samples := zip time_vector L).
    assert (samples.*1 = time_vector) as H1 by (apply fst_zip; lia).
    assert (samples.*2 = L) as H2 by (apply snd_zip; lia).
    rewrite bool_decide_eq_true_2 by apply changes_lengths.
    rewrite (changes_increasing UtilsSpec.Qlt_bool Hq4) by (by rewrite H1).
    simpl. rewrite zip_fst_snd.
    rewrite <- H1 at 2.
    rewrite (covering_changes_None Qle_bool UtilsSpec.Qlt_bool Hq1 Hq2 Hq3 Hq4)
      by (by rewrite H1).
    by rewrite H2.
Qed.

(** C7.  Whenever [continuous_to_discrete] returns, which it does for a
    time vector and a labeling of the same length, it returns as many
    breakpoints as labels and no two consecutive labels are equal. *)
Theorem continuous_to_discrete_no_redundant_breakpoints
    (as_times : bool) (time_vector : list Q) (L : list pyval) :
  (length time_vector = length L →
   ∃ bps labels,
     UtilsSpec.continuous_to_discrete as_times time_vector L = Ok (bps, labels)) ∧
  (∀ bps labels,
     UtilsSpec.continuous_to_discrete as_times time_vector L = Ok (bps, labels) →
     length labels = match bps with
                     | UtilsSpec.Indices l => length l
                     | UtilsSpec.Times l => length l
                     end ∧
     ∀ i a b, labels !! i = Some a → labels !! S i = Some b → a ≠ b).
Proof.
  unfold UtilsSpec.continuous_to_discrete. split.
  - intros Hlen. rewrite bool_decide_eq_true_2 by done.
    destruct as_times; eauto.
  - intros bps labels. case_bool_decide; [|done].
    assert (∀ {P} (samples : list (P * pyval)) i a b,
      (UtilsSpec.changes None samples).*2 !! i = Some a →
      (UtilsSpec.changes None samples).*2 !! S i = Some b → a ≠ b) as Hadj.
    { intros P samples i a b. rewrite !list_lookup_fmap.
      destruct (UtilsSpec.changes None samples !! i) as [s|] eqn:Hs; [|done].
      destruct (UtilsSpec.changes None samples !! S i) as [s'|] eqn:Hs'; [|done].
      simpl. intros [= <-] [= <-].
      by eapply (proj2 (changes_adjacent None samples)). }
    destruct as_times; intros [= <- <-];
      (split; [by rewrite !length_fmap|apply Hadj]).
Qed.

(** ** The label tables *)

Lemma maps_to_one_is_Some d k : is_Some (d !! k) → maps_to_one d k.
Proof. intros [c Hc]. exists c. split; [done|]. intros c' Hc'. congruence. Qed.

(** C6.  Each of the eight REMoDNaV codes has exactly one image in the full
    and in the simplified table; both tables have the eight codes, and only
    them, as keys; every value of the simplified table is one of Fixation,
    Saccade, Smooth Pursuit and PSO, with ISAC sent to Saccade and the four
    refined PSO codes to PSO, the other codes keeping their labels; and each
    of the four class ids of [nslr_hmm], like the key [None], has exactly one
    image in [CLASSES]. *)
Theorem label_tables_are_complete (ids : nslr_ids) :
  Forall (λ code, maps_to_one REMODNAV_CLASSES code ∧
                  maps_to_one REMODNAV_SIMPLE code) remodnav_codes ∧
  dom REMODNAV_CLASSES =@{gset pyval} list_to_set remodnav_codes ∧
  dom REMODNAV_SIMPLE =@{gset pyval} dom REMODNAV_CLASSES ∧
  map_Forall (λ _ c, c ∈ base_categories) REMODNAV_SIMPLE ∧
  Forall (λ entry, REMODNAV_SIMPLE !! PyStr entry.1 = Some entry.2)
    [ ("ISAC", "Saccade"); ("HPSO", "PSO"); ("LPSO", "PSO");
      ("IHPS", "PSO"); ("ILPS", "PSO") ]%string ∧
  Forall (λ code, REMODNAV_SIMPLE !! PyStr code = REMODNAV_CLASSES !! PyStr code)
    [ "FIXA"; "SACC"; "PURS" ]%string ∧
  Forall (λ k, maps_to_one (CLASSES ids) k)
    [ PyInt (FIXATION ids); PyInt (SACCADE ids); PyInt (SMOOTH_PURSUIT ids);
      PyInt (PSO ids); PyNone ].
Proof.
  split_and!.
  - unfold remodnav_codes.
    repeat (apply Forall_cons_2;
      [split; apply maps_to_one_is_Some; vm_compute; eexists; reflexivity|]).
    apply Forall_nil_2.
  - unfold REMODNAV_CLASSES, py_dict. rewrite dom_list_to_map_L.
    simpl. set_solver.
  - unfold REMODNAV_CLASSES, REMODNAV_SIMPLE, py_dict.
    by rewrite !dom_list_to_map_L.
  - unfold REMODNAV_SIMPLE, py_dict. simpl.
    repeat (apply map_Forall_insert_2; [set_solver|]).
    apply map_Forall_empty.
  - repeat constructor.
  - repeat constructor.
  - unfold CLASSES, py_dict. simpl.
    repeat (apply Forall_cons_2;
      [apply maps_to_one_is_Some; rewrite !lookup_insert;
       repeat case_decide; first [done|eexists; reflexivity]|]).
    apply Forall_nil_2.
Qed.

(** ** Scalar sampling rates *)

(** C1, on the code.  For the sampling rate 2 and five samples the
    synthesized time vector is [0, 0.5, ..., 4.5], ten entries and not the
    five of [0, 0.5, 1.0, 1.5, 2.0], and [classify_nslr_hmm] hands the
    backend these ten timestamps with five gaze rows. *)
Theorem scalar_rate_time_vector_length :
  time_array_of (TimeScalar 2%Q) Exact.five_samples
    = Ok [0; 1 # 2; 1; 3 # 2; 2; 5 # 2; 3; 7 # 2; 4; 9 # 2]%Q ∧
  time_array_of (TimeScalar 2%Q) Exact.five_samples
    ≠ Ok [0; 1 # 2; 1; 3 # 2; 2]%Q ∧
  w_trace (Exact.nslr_call (Ok Exact.one_segment_from_10) (TimeScalar 2%Q)
             Exact.five_samples true false).1
    = [ Call_classify_gaze [0; 1 # 2; 1; 3 # 2; 2; 5 # 2; 3; 7 # 2; 4; 9 # 2]%Q
          (zip Exact.five_samples Exact.five_samples) tt ].
Proof.
  split_and!.
  - reflexivity.
  - discriminate.
  - reflexivity.
Qed.

(** ** The claims at concrete recordings *)

Import Exact.

(** Samples from second 10 on and backend events from 0 on: the returned
    breakpoints start at 10. *)
Lemma classify_remodnav_realigns_witness :
  let call :=
    remodnav_call (Ok local_events) (TimeArray times_from_10) three_samples
      true true false in
  (** the hypotheses of the first part *)
  (times_from_10 !! 0 = Some 10%Q ∧
   remodnav_events (Remodnav0 := fixed_remodnav (Ok local_events))
     three_samples three_samples (TimeArray times_from_10) 1%Q tt tt tt
     = Ok (times_from_10, local_events) ∧
   local_events ≠ [] ∧
   Forall2 (λ ev c, class_dict_of (w_globals start_world) false !! label ev = Some c)
     local_events ["Fixation"; "Saccade"]%string) ∧
  (** its conclusion: the first breakpoint is 10, not 0 *)
  call.2 = Ok ([10; 101 # 10]%Q, [PyStr "Fixation"; PyStr "Saccade"],
               Some (map (realigned 10%Q) local_events)) ∧
  (** the second part at the same call *)
  ∃ t0 events,
    times_from_10 !! 0 = Some t0 ∧
    remodnav_events (Remodnav0 := fixed_remodnav (Ok local_events))
      three_samples three_samples (TimeArray times_from_10) 1%Q tt tt tt
      = Ok (times_from_10, events) ∧
    [10; 101 # 10]%Q = map (λ ev, np_add (start_time ev) t0) events ∧
    Some (map (realigned 10%Q) local_events)
      = Some (map (λ ev, {| start_time := np_add (start_time ev) t0;
                            end_time := np_add (end_time ev) t0;
                            label := label ev |}) events).
Proof.
  cbv zeta.
  assert (Forall2
            (λ (ev : event Q) c,
               class_dict_of (w_globals start_world) false !! label ev = Some c)
            local_events ["Fixation"; "Saccade"]%string) as Hknown.
  { repeat constructor. }
  split; [split_and!; [reflexivity|reflexivity|discriminate|exact Hknown]|].
  split.
  - assert (local_events ≠ []) as Hne by discriminate.
    exact (proj1 (classify_remodnav_realigns
                    (Remodnav0 := fixed_remodnav (Ok local_events))
                    three_samples three_samples times_from_10 1%Q true true false
                    tt tt tt start_world)
             10%Q local_events ["Fixation"; "Saccade"]%string
             eq_refl eq_refl Hne Hknown).
  - apply (proj2 (classify_remodnav_realigns
                    (Remodnav0 := fixed_remodnav (Ok local_events))
                    three_samples three_samples times_from_10 1%Q true true false
                    tt tt tt start_world)
             (remodnav_call (Ok local_events) (TimeArray times_from_10) three_samples
                true true false).1
             [10; 101 # 10]%Q [PyStr "Fixation"; PyStr "Saccade"]
             (Some (map (realigned 10%Q) local_events))).
    vm_compute; reflexivity.
Defined.

Lemma classify_remodnav_needs_an_event_witness :
  (remodnav_events (Remodnav0 := fixed_remodnav (Ok []))
     three_samples three_samples (TimeArray times_from_10) 1%Q tt tt tt
     = Ok (times_from_10, []) ∧
   (remodnav_call (Ok []) (TimeArray times_from_10) three_samples true false false).2
     = Err ValueError) ∧
  (let call :=
     remodnav_call (Ok local_events) (TimeArray times_from_10) three_samples
       true false false in
   call = (call.1, Ok ([10; 101 # 10]%Q, [PyStr "Fixation"; PyStr "Saccade"], None)) ∧
   ∃ times events,
     remodnav_events (Remodnav0 := fixed_remodnav (Ok local_events))
       three_samples three_samples (TimeArray times_from_10) 1%Q tt tt tt
       = Ok (times, events) ∧
     events ≠ [] ∧
     (true = true →
      length [10; 101 # 10]%Q = length events ∧
      length [PyStr "Fixation"; PyStr "Saccade"] = length events ∧
      [10; 101 # 10]%Q ≠ [] ∧ [PyStr "Fixation"; PyStr "Saccade"] ≠ [])).
Proof.
  split.
  - split; [reflexivity|].
    apply (proj1 (classify_remodnav_needs_an_event (Remodnav0 := fixed_remodnav (Ok []))
                    three_samples three_samples (TimeArray times_from_10) 1%Q
                    true false false tt tt tt start_world) times_from_10).
    reflexivity.
  - cbv zeta. split; [vm_compute; reflexivity|].
    apply (proj2 (classify_remodnav_needs_an_event
                    (Remodnav0 := fixed_remodnav (Ok local_events))
                    three_samples three_samples (TimeArray times_from_10) 1%Q
                    true false false tt tt tt start_world)
             (remodnav_call (Ok local_events) (TimeArray times_from_10) three_samples
                true false false).1
             [10; 101 # 10]%Q [PyStr "Fixation"; PyStr "Saccade"] None).
    vm_compute; reflexivity.
Defined.

Lemma nslr_breakpoints_are_start_times_witness :
  nslr_answer (NslrHmm0 := fixed_nslr (Ok one_segment_from_10))
    three_samples three_samples (TimeArray times_from_10) tt
    = Ok (times_from_10, one_segment_from_10) ∧
  (nslr_call (Ok one_segment_from_10) (TimeArray times_from_10) three_samples
     true false).2 = Ok ([10%Q], ["Fixation"%string], None) ∧
  let seg := one_segment_from_10.1.2 in
  length (nslr_breakpoints seg) = length (segments seg) ∧
  (∀ i s, segments seg !! i = Some s →
          nslr_breakpoints seg !! i = Some (fst (seg_t s))) ∧
  (∀ w' segs classes orig,
     nslr_call (Ok one_segment_from_10) (TimeArray times_from_10) three_samples
       true false = (w', Ok (segs, classes, orig)) →
     segs = map (λ s, fst (seg_t s)) (segments seg)).
Proof.
  split; [reflexivity|]. split; [reflexivity|]. cbv zeta.
  apply (nslr_breakpoints_are_start_times
           (NslrHmm0 := fixed_nslr (Ok one_segment_from_10))
           three_samples three_samples (TimeArray times_from_10) false tt
           start_world times_from_10 [PyInt 1; PyInt 1; PyInt 1]
           one_segment_from_10.1.2 [PyInt 1]).
  reflexivity.
Defined.

(** C8 as stated fails: the segment starts at sample index 0 and at second
    10, and the breakpoint is 10. *)
Lemma nslr_breakpoints_are_not_start_indices :
  (nslr_call (Ok one_segment_from_10) (TimeArray times_from_10) three_samples
     true false).2 = Ok ([10%Q], ["Fixation"%string], None) ∧
  [10%Q] ≠ map (λ s, inject_Z (Z.of_nat (fst (seg_i s))))
             (segments one_segment_from_10.1.2).
Proof. split; [reflexivity|]. vm_compute. discriminate. Qed.

Lemma irregular_sampling_warns_and_proceeds_witness :
  let call :=
    remodnav_call (Ok local_events) (TimeArray irregular_times) five_samples
      true false false in
  (** the irregular vector: warning, rate 1 = 1 / mean, and a result *)
  np_gt (np_std (diffs irregular_times)) tolerance = true ∧
  np_recip (np_mean (diffs irregular_times)) = 1%Q ∧
  w_trace call.1 =
    [ Warning irregular_sampling_message;
      Call_EyegazeClassifier 1%Q 1%Q tt;
      Call_preproc (zip five_samples five_samples) tt;
      Call_clf tt ] ∧
  call.2 = Ok ([0; 1 # 10]%Q, [PyStr "Fixation"; PyStr "Saccade"], None) ∧
  (** a regular vector: no warning *)
  np_gt (np_std (diffs Cases.regular_times)) tolerance = false ∧
  w_trace (remodnav_call (Ok local_events) (TimeArray Cases.regular_times)
             three_samples true false false).1 =
    [ Call_EyegazeClassifier 1%Q 4%Q tt;
      Call_preproc (zip three_samples three_samples) tt;
      Call_clf tt ] ∧
  (** the theorem at the irregular vector *)
  (∃ rest,
     w_trace call.1
     = w_trace start_world ++
       (if np_gt (np_std (diffs irregular_times)) tolerance
        then [Warning irregular_sampling_message] else []) ++ rest ∧
     (∀ m, Warning m ∉ rest) ∧
     (∀ p rate k, Call_EyegazeClassifier p rate k ∈ rest →
                  rate = np_recip (np_mean (diffs irregular_times))) ∧
     (length five_samples = length five_samples →
      ∃ rest', rest = Call_EyegazeClassifier 1%Q
                        (np_recip (np_mean (diffs irregular_times))) tt :: rest')) ∧
  (∀ std,
     (classify_remodnav (Numeric0 := with_std Exact.numeric std)
        (Remodnav0 := fixed_remodnav (Ok local_events))
        five_samples five_samples (TimeArray irregular_times) 1%Q
        true false false tt tt tt start_world).2 = call.2).
Proof.
  cbv zeta.
  split; [reflexivity|]. split; [reflexivity|]. split; [reflexivity|].
  split; [reflexivity|]. split; [reflexivity|]. split; [reflexivity|].
  apply (irregular_sampling_warns_and_proceeds
           (Remodnav0 := fixed_remodnav (Ok local_events))
           five_samples five_samples irregular_times 1%Q true false false
           tt tt tt start_world).
Defined.

Lemma round_trip_reproduces_labeling_witness :
  let L := [PyStr "Fixation"; PyStr "Fixation"; PyStr "Saccade";
            PyStr "Saccade"; PyStr "Fixation"] in
  length irregular_times = length L ∧
  UtilsSpec.strictly_increasing UtilsSpec.Qlt_bool irregular_times = true ∧
  UtilsSpec.round_trip false irregular_times L = Ok (irregular_times, L) ∧
  UtilsSpec.round_trip true irregular_times L = Ok (irregular_times, L).
Proof.
  cbv zeta. split; [reflexivity|]. split; [reflexivity|].
  destruct (round_trip_reproduces_labeling irregular_times
              [PyStr "Fixation"; PyStr "Fixation"; PyStr "Saccade";
               PyStr "Saccade"; PyStr "Fixation"] eq_refl) as [Hindex Htime].
  split; [exact Hindex|]. apply Htime. reflexivity.
Defined.

(** C5 as stated fails with breakpoints reported as times and a timestamp
    that repeats: the second and third sample share the time 1, the
    breakpoint of the third covers both, and the round trip returns another
    labeling; when the labels change between two samples of one time the
    breakpoints are not strictly increasing and the conversion back is
    refused. *)
Lemma round_trip_fails_on_repeated_timestamps :
  let L := [PyStr "Fixation"; PyStr "Fixation"; PyStr "Saccade"] in
  length [0; 1; 1]%Q = length L ∧
  UtilsSpec.round_trip true [0; 1; 1]%Q L
    = Ok ([0; 1; 1]%Q, [PyStr "Fixation"; PyStr "Saccade"; PyStr "Saccade"]) ∧
  UtilsSpec.round_trip true [0; 1; 1]%Q L ≠ Ok ([0; 1; 1]%Q, L) ∧
  UtilsSpec.round_trip true [0; 0]%Q [PyStr "Fixation"; PyStr "Saccade"]
    = Err UtilsSpec.MalformedSegmentationError.
Proof.
  cbv zeta. split_and!; [reflexivity|reflexivity| |reflexivity].
  vm_compute. discriminate.
Qed.

Lemma continuous_to_discrete_no_redundant_breakpoints_witness :
  let L := [PyStr "Fixation"; PyStr "Fixation"; PyStr "Saccade";
            PyStr "Saccade"; PyStr "Fixation"] in
  length irregular_times = length L ∧
  UtilsSpec.continuous_to_discrete true irregular_times L
    = Ok (UtilsSpec.Times [0; 2; 4]%Q,
          [PyStr "Fixation"; PyStr "Saccade"; PyStr "Fixation"]) ∧
  (∃ bps labels,
     UtilsSpec.continuous_to_discrete true irregular_times L = Ok (bps, labels)) ∧
  ∀ i a b,
    [PyStr "Fixation"; PyStr "Saccade"; PyStr "Fixation"] !! i = Some a →
    [PyStr "Fixation"; PyStr "Saccade"; PyStr "Fixation"] !! S i = Some b → a ≠ b.
Proof.
  cbv zeta. split; [reflexivity|]. split; [reflexivity|].
  destruct (continuous_to_discrete_no_redundant_breakpoints true irregular_times
              [PyStr "Fixation"; PyStr "Fixation"; PyStr "Saccade";
               PyStr "Saccade"; PyStr "Fixation"]) as [Hreturns Hdistinct].
  split; [apply Hreturns; reflexivity|].
  apply (Hdistinct (UtilsSpec.Times [0; 2; 4]%Q)
           [PyStr "Fixation"; PyStr "Saccade"; PyStr "Fixation"] eq_refl).
Defined.

(** * Further properties of the adapters *)

Section ComprehensionOrder.
Context {A B : Type} (f : A → result B).

(** The exception of a comprehension is that of the first element that has
    one. *)
Lemma comprehension_first_Err pre a post e :
  Forall (λ a', ∃ b, f a' = Ok b) pre → f a = Err e →
  comprehension f (pre ++ a :: post) = Err e.
Proof.
  intros Hpre Ha. induction Hpre as [|a' pre [b Hb] _ IH]; simpl.
  - by rewrite Ha.
  - by rewrite Hb, IH.
Qed.
End ComprehensionOrder.

Section ErrorPaths.
Context {num kwargs : Type}.
Context `{!Numeric num, !NslrHmm num kwargs, !Remodnav num kwargs, !Utils num}.
Implicit Types w : @world num kwargs.

(** X1.  A scalar sampling rate of zero makes [1/time] raise
    ZeroDivisionError: [classify_remodnav] raises it at once, and
    [classify_nslr_hmm] does once [x] and [y] have stacked; neither gives a
    warning or calls its backend. *)
Theorem zero_rate_raises_ZeroDivisionError x y rate px2deg (rd ro so : bool)
    ckw pkw rkw kw w :
  py_recip rate = None →
  classify_remodnav x y (TimeScalar rate) px2deg rd ro so ckw pkw rkw w
    = (w, Err ZeroDivisionError) ∧
  (length x = length y →
   classify_nslr_hmm x y (TimeScalar rate) rd ro kw w = (w, Err ZeroDivisionError)).
Proof.
  intros Hzero. split.
  - rewrite classify_remodnav_unfold. simpl. by rewrite Hzero.
  - intros Hlen. rewrite classify_nslr_hmm_unfold, (columns_Ok _ _ Hlen).
    simpl. by rewrite Hzero.
Qed.

(** X2.  Gaze arrays of different lengths are refused with ValueError
    before any backend is called: by [classify_nslr_hmm] first of all,
    whatever [time] is, and by [classify_remodnav] after the time array is
    resolved and the irregular-sampling warning, if due, is given. *)
Theorem mismatched_gaze_arrays_raise_ValueError x y time px2deg (rd ro so : bool)
    ckw pkw rkw kw w :
  length x ≠ length y →
  classify_nslr_hmm x y time rd ro kw w = (w, Err ValueError) ∧
  (∀ times,
     time_array_of time x = Ok times →
     classify_remodnav x y time px2deg rd ro so ckw pkw rkw w
     = (after w (if np_gt (np_std (diffs times)) tolerance
                 then [Warning irregular_sampling_message] else []),
        Err ValueError)).
Proof.
  intros Hlen.
  assert (columns x y = Err ValueError) as Hcols
    by (unfold columns; by case_decide).
  split.
  - by rewrite classify_nslr_hmm_unfold, Hcols.
  - intros times Htimes.
    by rewrite classify_remodnav_unfold, Htimes, Hcols.
Qed.

(** X3.  An exception of a backend is the exception of the call, and the
    stages after the one that raised are not invoked: the trace ends with
    the call that raised. *)
Theorem backend_exceptions_propagate x y time times px2deg (rd ro so : bool)
    ckw pkw rkw kw w e :
  length x = length y →
  time_array_of time x = Ok times →
  let rate := np_recip (np_mean (diffs times)) in
  let warned := if np_gt (np_std (diffs times)) tolerance
                then [Warning irregular_sampling_message] else [] in
  (EyegazeClassifier px2deg rate ckw = Err e →
   classify_remodnav x y time px2deg rd ro so ckw pkw rkw w
   = (after w (warned ++ [Call_EyegazeClassifier px2deg rate ckw]), Err e)) ∧
  (∀ clf,
     EyegazeClassifier px2deg rate ckw = Ok clf →
     preproc clf (zip x y) pkw = Err e →
     classify_remodnav x y time px2deg rd ro so ckw pkw rkw w
     = (after w (warned ++ [Call_EyegazeClassifier px2deg rate ckw;
                            Call_preproc (zip x y) pkw]), Err e)) ∧
  (∀ clf data_preproc,
     EyegazeClassifier px2deg rate ckw = Ok clf →
     preproc clf (zip x y) pkw = Ok data_preproc →
     clf_call clf data_preproc rkw = Err e →
     classify_remodnav x y time px2deg rd ro so ckw pkw rkw w
     = (after w (warned ++ [Call_EyegazeClassifier px2deg rate ckw;
                            Call_preproc (zip x y) pkw; Call_clf rkw]), Err e)) ∧
  (classify_gaze times (zip x y) kw = Err e →
   classify_nslr_hmm x y time rd ro kw w
   = (after w [Call_classify_gaze times (zip x y) kw], Err e)).
Proof.
  intros Hlen Htimes rate warned. split_and!.
  - intros Hclf. rewrite classify_remodnav_unfold, Htimes, (columns_Ok _ _ Hlen).
    cbv zeta. unfold effective_sampling_rate. fold rate. by rewrite Hclf.
  - intros clf Hclf Hpre.
    rewrite classify_remodnav_unfold, Htimes, (columns_Ok _ _ Hlen).
    cbv zeta. unfold effective_sampling_rate. fold rate. by rewrite Hclf, Hpre.
  - intros clf dp Hclf Hpre Hrun.
    rewrite classify_remodnav_unfold, Htimes, (columns_Ok _ _ Hlen).
    cbv zeta. unfold effective_sampling_rate. fold rate.
    by rewrite Hclf, Hpre, Hrun.
  - intros Hgaze.
    by rewrite classify_nslr_hmm_unfold, (columns_Ok _ _ Hlen), Htimes, Hgaze.
Qed.

(** X4.  With an empty time array and a backend answer of at least one
    event, [classify_remodnav] raises IndexError at [times[0]], in either
    mode and whatever the labels are. *)
Theorem empty_time_array_raises_IndexError x y time px2deg (rd ro so : bool)
    ckw pkw rkw w ev events :
  remodnav_events x y time px2deg ckw pkw rkw = Ok ([], ev :: events) →
  (classify_remodnav x y time px2deg rd ro so ckw pkw rkw w).2 = Err IndexError.
Proof. intros Hev. by rewrite classify_remodnav_result, Hev. Qed.

(** X5.  The output flags change nothing of what a call does besides
    returning: the warning and the backend calls with their arguments are
    the same for every choice of [return_discrete], [return_orig_output]
    and [simple_output]. *)
Theorem output_flags_do_not_change_effects x y time px2deg
    (rd ro so rd' ro' so' : bool) ckw pkw rkw kw w :
  (classify_remodnav x y time px2deg rd ro so ckw pkw rkw w).1
  = (classify_remodnav x y time px2deg rd' ro' so' ckw pkw rkw w).1 ∧
  (classify_nslr_hmm x y time rd ro kw w).1
  = (classify_nslr_hmm x y time rd' ro' kw w).1.
Proof.
  rewrite !classify_remodnav_unfold, !classify_nslr_hmm_unfold. split.
  - destruct (time_array_of time x) as [times|]; [|done]. cbv zeta.
    destruct (columns x y) as [data|]; [|done].
    destruct (EyegazeClassifier _ _ _) as [clf|]; [|done].
    by destruct (preproc _ _ _).
  - destruct (columns x y) as [data|]; [|done].
    by destruct (time_array_of time x).
Qed.
End ErrorPaths.

(** ** The label tables, key by key *)

Lemma remodnav_tables_same_keys k :
  REMODNAV_CLASSES !! k = None ↔ REMODNAV_SIMPLE !! k = None.
Proof.
  unfold REMODNAV_SIMPLE, REMODNAV_CLASSES, py_dict; simpl.
  rewrite !lookup_insert. repeat case_decide; subst; try done.
Qed.

(** X6.  [CLASSES] always sends the id [PSO], its last integer key, to "PSO"
    and [None] to "None"; and when the four class ids of [nslr_hmm] are
    pairwise distinct it has exactly five entries, each id with its own
    name. *)
Theorem CLASSES_lookup (ids : nslr_ids) :
  CLASSES ids !! PyInt (PSO ids) = Some "PSO"%string ∧
  CLASSES ids !! PyNone = Some "None"%string ∧
  (NoDup [FIXATION ids; SACCADE ids; SMOOTH_PURSUIT ids; PSO ids] →
   ∀ k v,
     CLASSES ids !! k = Some v ↔
     (k, v) ∈ [ (PyInt (FIXATION ids), "Fixation");
                (PyInt (SACCADE ids), "Saccade");
                (PyInt (SMOOTH_PURSUIT ids), "Smooth Pursuit");
                (PyInt (PSO ids), "PSO");
                (PyNone, "None") ]%string).
Proof.
  unfold CLASSES, py_dict. simpl. split_and!.
  - rewrite !lookup_insert. repeat case_decide; done.
  - rewrite !lookup_insert. repeat case_decide; done.
  - intros Hdup k v.
    apply NoDup_cons in Hdup as [H1 Hdup]. apply NoDup_cons in Hdup as [H2 Hdup].
    apply NoDup_cons in Hdup as [H3 _].
    rewrite !lookup_insert, lookup_empty.
    rewrite !elem_of_cons, elem_of_nil.
    repeat case_decide; subst; split;
      try (intros [= <-]; by auto 10);
      try done;
      intros [Hc|[Hc|[Hc|[Hc|[Hc|[]]]]]];
      simplify_eq; try done; exfalso; set_solver.
Qed.

(** ** Output modes *)

Section OutputModes.
Context {num kwargs : Type}.
Context `{!Numeric num, !NslrHmm num kwargs, !Remodnav num kwargs, !Utils num}.
Implicit Types w : @world num kwargs.

Lemma remodnav_events_times x y time px2deg ckw pkw rkw times times' events :
  time_array_of time x = Ok times →
  remodnav_events x y time px2deg ckw pkw rkw = Ok (times', events) →
  times' = times.
Proof.
  intros Htimes. unfold remodnav_events, mbind, result_bind. rewrite Htimes.
  destruct (columns x y); [|done].
  destruct (EyegazeClassifier _ _ _); [|done].
  destruct (preproc _ _ _); [|done].
  destruct (clf_call _ _ _); [|done]. by intros [= <- _].
Qed.

Lemma remodnav_events_Err_times x y time px2deg ckw pkw rkw e :
  time_array_of time x = Err e →
  remodnav_events x y time px2deg ckw pkw rkw = Err e.
Proof.
  intros Htimes. unfold remodnav_events, mbind, result_bind. by rewrite Htimes.
Qed.

(** X7.  The continuous output of [classify_remodnav] is its discrete output
    passed through [discrete_to_continuous] over the time array: the same
    exceptions arise before the conversion, the converter receives the
    discrete segments and classes, and the events handed out with
    [return_orig_output] are the same. *)
Theorem continuous_output_is_converted_discrete_output x y time times px2deg
    (ro so : bool) ckw pkw rkw w :
  time_array_of time x = Ok times →
  (classify_remodnav x y time px2deg false ro so ckw pkw rkw w).2 =
  match (classify_remodnav x y time px2deg true ro so ckw pkw rkw w).2 with
  | Ok (segs, classes, orig) =>
      match discrete_to_continuous times segs classes with
      | Ok (segs', classes') => Ok (segs', classes', orig)
      | Err e => Err e
      end
  | Err e => Err e
  end.
Proof.
  intros Htimes. rewrite !classify_remodnav_result.
  destruct (remodnav_events _ _ _ _ _ _ _) as [[times' events]|] eqn:Hev; [|done].
  apply (remodnav_events_times _ _ _ _ _ _ _ _ _ _ Htimes) in Hev as ->.
  unfold remodnav_after_backend, mbind, result_bind.
  destruct (realign times events) as [events'|]; [|done].
  destruct (comprehension _ events') as [rows|]; [|done].
  destruct (unpack_two (zip_star rows)) as [[segs classes]|]; [|done].
  destruct ro; simpl; by destruct (discrete_to_continuous _ _ _) as [[??]|].
Qed.

(** X8.  [return_orig_output] only adds the third component: with and
    without it a call raises the same exception or returns the same segments
    and classes, and the third component is there exactly when it is asked
    for. *)
Theorem return_orig_output_only_adds_the_original x y time px2deg (rd so : bool)
    ckw pkw rkw kw w :
  match (classify_remodnav x y time px2deg rd true so ckw pkw rkw w).2,
        (classify_remodnav x y time px2deg rd false so ckw pkw rkw w).2 with
  | Ok (segs, classes, orig), Ok (segs', classes', orig') =>
      segs = segs' ∧ classes = classes' ∧ is_Some orig ∧ orig' = None
  | Err e, Err e' => e = e'
  | _, _ => False
  end ∧
  match (classify_nslr_hmm x y time rd true kw w).2,
        (classify_nslr_hmm x y time rd false kw w).2 with
  | Ok (segs, classes, orig), Ok (segs', classes', orig') =>
      segs = segs' ∧ classes = classes' ∧ is_Some orig ∧ orig' = None
  | Err e, Err e' => e = e'
  | _, _ => False
  end.
Proof.
  rewrite !classify_remodnav_result, !classify_nslr_hmm_result. split.
  - destruct (remodnav_events _ _ _ _ _ _ _) as [[times events]|]; [|done].
    unfold remodnav_after_backend, mbind, result_bind.
    destruct (realign times events) as [events'|]; [|done].
    destruct (comprehension _ events') as [rows|]; [|done].
    destruct (unpack_two (zip_star rows)) as [[segs classes]|]; [|done].
    destruct rd; simpl; [by eauto|].
    destruct (discrete_to_continuous _ _ _) as [[??]|]; [by eauto|done].
  - destruct (nslr_answer _ _ _ _) as [[ta [[sc seg] cls]]|]; [|done].
    unfold nslr_after_backend, mbind, result_bind.
    destruct rd; simpl.
    + destruct (comprehension _ cls); [by eauto|done].
    + destruct (discrete_to_continuous _ _ _) as [[segs natives]|]; [|done].
      destruct (comprehension _ natives); [by eauto|done].
Qed.

(** X9.  In discrete mode, with the module's tables, the simplified and the
    full output of [classify_remodnav] differ in the class names only: both
    calls raise the same exception, or both return, with the same segments
    and the same events, and classes that are the two tables' values for one
    and the same code. *)
Theorem simple_output_only_renames_classes x y time px2deg (ro : bool)
    ckw pkw rkw w ids :
  w_globals w = module_globals ids →
  match (classify_remodnav x y time px2deg true ro false ckw pkw rkw w).2,
        (classify_remodnav x y time px2deg true ro true ckw pkw rkw w).2 with
  | Ok (segs, classes, orig), Ok (segs', classes', orig') =>
      segs = segs' ∧ orig = orig' ∧
      Forall2 (λ c c', ∃ code full simple,
                 REMODNAV_CLASSES !! code = Some full ∧
                 REMODNAV_SIMPLE !! code = Some simple ∧
                 c = PyStr full ∧ c' = PyStr simple) classes classes'
  | Err e, Err e' => e = e'
  | _, _ => False
  end.
Proof.
  intros Hg. rewrite !classify_remodnav_result.
  destruct (remodnav_events _ _ _ _ _ _ _) as [[times events]|]; [|done].
  unfold remodnav_after_backend, mbind, result_bind.
  destruct (realign times events) as [events'|]; [|done].
  rewrite Hg. simpl. clear.
  match goal with |- context [comprehension ?f events'] => set (full := f) end.
  match goal with |- context [comprehension ?f events'] =>
    lazymatch f with full => fail | _ => set (simple := f) end end.
  assert (match comprehension full events', comprehension simple events' with
          | Ok rows, Ok rows' =>
              rows.*1 = rows'.*1 ∧
              Forall2 (λ c c', ∃ code f s,
                         REMODNAV_CLASSES !! code = Some f ∧
                         REMODNAV_SIMPLE !! code = Some s ∧
                         c = PyStr f ∧ c' = PyStr s) (rows.*2) (rows'.*2)
          | Err e, Err e' => e = e'
          | _, _ => False
          end) as Hrows.
  { induction events' as [|ev events' IH]; simpl; [by split; constructor|].
    assert (full ev = match REMODNAV_CLASSES !! label ev with
                      | Some c => Ok (start_time ev, PyStr c)
                      | None => Err (KeyError (label ev))
                      end) as ->
      by (unfold full, getitem; by destruct (_ !! _)).
    assert (simple ev = match REMODNAV_SIMPLE !! label ev with
                        | Some c => Ok (start_time ev, PyStr c)
                        | None => Err (KeyError (label ev))
                        end) as ->
      by (unfold simple, getitem; by destruct (_ !! _)).
    destruct (REMODNAV_CLASSES !! label ev) as [f|] eqn:Hf;
      destruct (REMODNAV_SIMPLE !! label ev) as [s|] eqn:Hs; simpl.
    - destruct (comprehension full events') as [rows|];
        destruct (comprehension simple events') as [rows'|]; try done.
      destruct IH as [IH1 IH2]. rewrite !fmap_cons. simpl. split; [by f_equal|].
      constructor; [|done]. by exists (label ev), f, s.
    - apply remodnav_tables_same_keys in Hs. congruence.
    - apply remodnav_tables_same_keys in Hf. congruence.
    - done. }
  destruct (comprehension full events') as [rows|];
    destruct (comprehension simple events') as [rows'|]; try done.
  destruct Hrows as [Hsegs Hclasses].
  rewrite !unpack_zip_star.
  destruct (decide (rows = [])) as [->|Hne].
  - symmetry in Hsegs. apply fmap_nil_inv in Hsegs as ->. done.
  - assert (rows' ≠ []) as Hne' by (intros ->; by destruct rows).
    destruct rows as [|row rows]; [done|].
    destruct rows' as [|row' rows']; [done|].
    cbv iota. rewrite <- Hsegs. cbv beta iota.
    destruct ro; by split_and!.
Qed.

(** X10.  In discrete mode, a backend answer whose per-segment class ids are
    all in [CLASSES] makes [classify_nslr_hmm] return the segments' start
    times, the table's names for the ids in order, and on request the
    backend's three results unchanged.  The lengths of the two lists are
    those of the backend's two lists, which the adapter does not compare. *)
Theorem classify_nslr_hmm_discrete_returns x y time (ro : bool) kw w
    time_array sc seg cls names :
  nslr_answer x y time kw = Ok (time_array, (sc, seg, cls)) →
  Forall2 (λ k c, g_CLASSES (w_globals w) !! k = Some c) cls names →
  (classify_nslr_hmm x y time true ro kw w).2
  = Ok (map (λ s, fst (seg_t s)) (segments seg), names,
        if ro
        then Some {| sample_class := sc; segmentation := seg; seg_class := cls |}
        else None) ∧
  length (map (λ s, fst (seg_t s)) (segments seg)) = length (segments seg) ∧
  length names = length cls.
Proof.
  intros Hans Hnames. split_and!.
  - rewrite classify_nslr_hmm_result, Hans.
    rewrite (nslr_after_backend_translate _ _ _ _ _ true ro
               (nslr_breakpoints seg) cls eq_refl).
    rewrite (comprehension_Ok (getitem (g_CLASSES (w_globals w))) cls names);
      [done|].
    eapply Forall2_impl; [exact Hnames|]. intros k c. by rewrite getitem_Ok.
  - apply length_map.
  - symmetry. by eapply Forall2_length.
Qed.

(** X11.  In continuous mode [classify_nslr_hmm] converts the native class
    ids first and translates afterwards: when the converter returns and all
    its labels are in [CLASSES], the call returns the converter's positions
    unchanged with the table's names for the converter's labels, and on
    request the backend's three results unchanged. *)
Theorem classify_nslr_hmm_continuous_returns x y time (ro : bool) kw w
    time_array sc seg cls positions natives names :
  nslr_answer x y time kw = Ok (time_array, (sc, seg, cls)) →
  discrete_to_continuous time_array (map (λ s, fst (seg_t s)) (segments seg)) cls
    = Ok (positions, natives) →
  Forall2 (λ k c, g_CLASSES (w_globals w) !! k = Some c) natives names →
  (classify_nslr_hmm x y time false ro kw w).2
  = Ok (positions, names,
        if ro
        then Some {| sample_class := sc; segmentation := seg; seg_class := cls |}
        else None).
Proof.
  intros Hans Hconv Hnames.
  rewrite classify_nslr_hmm_result, Hans.
  rewrite (nslr_after_backend_translate _ _ _ _ _ false ro positions natives Hconv).
  rewrite (comprehension_Ok (getitem (g_CLASSES (w_globals w))) natives names);
    [done|].
  eapply Forall2_impl; [exact Hnames|]. intros k c. by rewrite getitem_Ok.
Qed.

(** X12.  [classify_nslr_hmm] never gives a warning and calls its backend at
    most once; with an explicit time vector and gaze arrays of one length
    the backend receives that vector as it is, whatever its length or
    order, together with the rows [(x[k], y[k])]. *)
Theorem classify_nslr_hmm_effects_are_one_call x y time (rd ro : bool) kw w :
  (∃ rest,
     (classify_nslr_hmm x y time rd ro kw w).1 = after w rest ∧
     length rest ≤ 1 ∧ ∀ m, Warning m ∉ rest) ∧
  (∀ ts, time = TimeArray ts → length x = length y →
     (classify_nslr_hmm x y time rd ro kw w).1
     = after w [Call_classify_gaze ts (zip x y) kw]).
Proof.
  rewrite classify_nslr_hmm_unfold. split.
  - destruct (columns x y) as [data|];
      [|exists []; rewrite after_nil; split_and!; [done|simpl; lia|set_solver]].
    destruct (time_array_of time x) as [ta|];
      [|exists []; rewrite after_nil; split_and!; [done|simpl; lia|set_solver]].
    eexists. split_and!; [done|simpl; lia|].
    intros m Hin. apply list_elem_of_singleton in Hin. done.
  - intros ts -> Hlen. by rewrite (columns_Ok _ _ Hlen).
Qed.

(** X13.  The KeyError of a call names the first native label, in backend
    order, that its table lacks: for [classify_remodnav] the label of the
    first such event, in either mode; for [classify_nslr_hmm] in discrete
    mode the first such per-segment class id. *)
Theorem first_absent_label_is_reported x y time px2deg (rd ro so : bool)
    ckw pkw rkw kw w :
  (∀ t0 ts pre ev post,
     remodnav_events x y time px2deg ckw pkw rkw = Ok (t0 :: ts, pre ++ ev :: post) →
     Forall (λ ev', is_Some (class_dict_of (w_globals w) so !! label ev')) pre →
     class_dict_of (w_globals w) so !! label ev = None →
     (classify_remodnav x y time px2deg rd ro so ckw pkw rkw w).2
     = Err (KeyError (label ev))) ∧
  (∀ time_array sc seg pre k post,
     nslr_answer x y time kw = Ok (time_array, (sc, seg, pre ++ k :: post)) →
     Forall (λ k', is_Some (g_CLASSES (w_globals w) !! k')) pre →
     g_CLASSES (w_globals w) !! k = None →
     (classify_nslr_hmm x y time true ro kw w).2 = Err (KeyError k)).
Proof.
  split.
  - intros t0 ts pre ev post Hev Hpre Habs.
    rewrite classify_remodnav_result, Hev.
    unfold remodnav_after_backend, mbind, result_bind.
    rewrite realign_cons. fold (class_dict_of (w_globals w) so).
    change (map (realigned t0) (pre ++ ev :: post))
      with (realigned t0 <$> (pre ++ ev :: post)).
    rewrite fmap_app, fmap_cons.
    rewrite (comprehension_first_Err _ _ _ _ (KeyError (label ev))); [done| |].
    + apply Forall_fmap. eapply Forall_impl; [exact Hpre|].
      intros ev' [c Hc]. simpl. unfold getitem. rewrite Hc. by eexists.
    + simpl. unfold getitem. by rewrite Habs.
  - intros time_array sc seg pre k post Hans Hpre Habs.
    rewrite classify_nslr_hmm_result, Hans.
    rewrite (nslr_after_backend_translate _ _ _ _ _ true ro
               (nslr_breakpoints seg) (pre ++ k :: post) eq_refl).
    rewrite (comprehension_first_Err _ _ _ _ (KeyError k)); [done| |].
    + eapply Forall_impl; [exact Hpre|].
      intros k' [c Hc]. unfold getitem. rewrite Hc. by eexists.
    + unfold getitem. by rewrite Habs.
Qed.
End OutputModes.

(** ** The further properties at concrete recordings *)

Import Cases.

Lemma zero_rate_raises_ZeroDivisionError_witness :
  py_recip 0%Q = None ∧
  remodnav_call (Ok local_events) (TimeScalar 0%Q) three_samples false false false
    = (start_world, Err ZeroDivisionError) ∧
  nslr_call (Ok one_segment_from_10) (TimeScalar 0%Q) three_samples false false
    = (start_world, Err ZeroDivisionError).
Proof.
  assert (py_recip 0%Q = None) as Hzero by reflexivity.
  split; [exact Hzero|].
  destruct (zero_rate_raises_ZeroDivisionError
              (NslrHmm0 := fixed_nslr (Ok one_segment_from_10))
              (Remodnav0 := fixed_remodnav (Ok local_events))
              three_samples three_samples 0%Q 1%Q false false false
              tt tt tt tt start_world Hzero) as [Hremodnav Hnslr].
  split; [exact Hremodnav|exact (Hnslr eq_refl)].
Defined.

Lemma mismatched_gaze_arrays_raise_ValueError_witness :
  length three_samples ≠ length five_samples ∧
  classify_nslr_hmm (NslrHmm0 := fixed_nslr (Ok one_segment_from_10))
    three_samples five_samples (TimeArray irregular_times) false false tt start_world
    = (start_world, Err ValueError) ∧
  classify_remodnav (Remodnav0 := fixed_remodnav (Ok local_events))
    three_samples five_samples (TimeArray irregular_times) 1%Q false false false
    tt tt tt start_world
    = (after start_world [Warning irregular_sampling_message], Err ValueError).
Proof.
  assert (length three_samples ≠ length five_samples) as Hlen by discriminate.
  split; [exact Hlen|].
  destruct (mismatched_gaze_arrays_raise_ValueError
              (NslrHmm0 := fixed_nslr (Ok one_segment_from_10))
              (Remodnav0 := fixed_remodnav (Ok local_events))
              three_samples five_samples (TimeArray irregular_times) 1%Q
              false false false tt tt tt tt start_world Hlen) as [Hnslr Hremodnav].
  split; [exact Hnslr|exact (Hremodnav irregular_times eq_refl)].
Defined.

Lemma backend_exceptions_propagate_witness :
  length three_samples = length three_samples ∧
  time_array_of (TimeArray regular_times) three_samples = Ok regular_times ∧
  classify_remodnav (Remodnav0 := raising_remodnav 0)
    three_samples three_samples (TimeArray regular_times) 1%Q true false false
    tt tt tt start_world
    = (after start_world [Call_EyegazeClassifier 1%Q 4%Q tt], Err BackendError) ∧
  classify_remodnav (Remodnav0 := raising_remodnav 1)
    three_samples three_samples (TimeArray regular_times) 1%Q true false false
    tt tt tt start_world
    = (after start_world [Call_EyegazeClassifier 1%Q 4%Q tt;
                          Call_preproc (zip three_samples three_samples) tt],
       Err BackendError) ∧
  classify_remodnav (Remodnav0 := raising_remodnav 2)
    three_samples three_samples (TimeArray regular_times) 1%Q true false false
    tt tt tt start_world
    = (after start_world [Call_EyegazeClassifier 1%Q 4%Q tt;
                          Call_preproc (zip three_samples three_samples) tt;
                          Call_clf tt],
       Err BackendError) ∧
  nslr_call (Err BackendError) (TimeArray regular_times) three_samples true false
    = (after start_world
         [Call_classify_gaze regular_times (zip three_samples three_samples) tt],
       Err BackendError).
Proof.
  split; [reflexivity|]. split; [reflexivity|].
  pose proof (λ R, backend_exceptions_propagate
                (NslrHmm0 := fixed_nslr (Err BackendError)) (Remodnav0 := R)
                three_samples three_samples (TimeArray regular_times) regular_times
                1%Q true false false tt tt tt tt start_world BackendError
                eq_refl eq_refl) as Hprop.
  split; [exact (proj1 (Hprop (raising_remodnav 0)) eq_refl)|].
  split; [exact (proj1 (proj2 (Hprop (raising_remodnav 1))) tt eq_refl eq_refl)|].
  split; [exact (proj1 (proj2 (proj2 (Hprop (raising_remodnav 2))))
                   tt tt eq_refl eq_refl eq_refl)|].
  exact (proj2 (proj2 (proj2 (Hprop (raising_remodnav 0)))) eq_refl).
Defined.

Lemma empty_time_array_raises_IndexError_witness :
  remodnav_events (Remodnav0 := fixed_remodnav (Ok local_events))
    [] [] (TimeArray []) 1%Q tt tt tt
    = Ok ([], {| start_time := 0%Q; end_time := (1 # 10)%Q; label := PyStr "FIXA" |}
              :: [ {| start_time := (1 # 10)%Q; end_time := (1 # 5)%Q;
                      label := PyStr "SACC" |} ]) ∧
  (remodnav_call (Ok local_events) (TimeArray []) [] false false false).2
    = Err IndexError.
Proof.
  split; [reflexivity|].
  exact (empty_time_array_raises_IndexError
           (Remodnav0 := fixed_remodnav (Ok local_events))
           [] [] (TimeArray []) 1%Q false false false tt tt tt start_world
           _ _ eq_refl).
Defined.

Lemma CLASSES_lookup_witness :
  NoDup [FIXATION ids; SACCADE ids; SMOOTH_PURSUIT ids; PSO ids] ∧
  ∀ k v,
    CLASSES ids !! k = Some v ↔
    (k, v) ∈ [ (PyInt 1, "Fixation"); (PyInt 2, "Saccade");
               (PyInt 4, "Smooth Pursuit"); (PyInt 3, "PSO");
               (PyNone, "None") ]%string.
Proof.
  assert (NoDup [FIXATION ids; SACCADE ids; SMOOTH_PURSUIT ids; PSO ids]) as Hdup.
  { apply (bool_decide_unpack _). vm_compute. exact I. }
  split; [exact Hdup|].
  exact (proj2 (proj2 (CLASSES_lookup ids)) Hdup).
Defined.

Lemma continuous_output_is_converted_discrete_output_witness :
  time_array_of (TimeArray times_from_10) three_samples = Ok times_from_10 ∧
  (remodnav_call (Ok local_events) (TimeArray times_from_10) three_samples
     true false false).2
    = Ok ([10; 101 # 10]%Q, [PyStr "Fixation"; PyStr "Saccade"], None) ∧
  (remodnav_call (Ok local_events) (TimeArray times_from_10) three_samples
     false false false).2
    = match discrete_to_continuous times_from_10 [10; 101 # 10]%Q
              [PyStr "Fixation"; PyStr "Saccade"] with
      | Ok (segs', classes') => Ok (segs', classes', None)
      | Err e => Err e
      end.
Proof.
  split; [reflexivity|]. split; [reflexivity|].
  exact (continuous_output_is_converted_discrete_output
           (Remodnav0 := fixed_remodnav (Ok local_events))
           three_samples three_samples (TimeArray times_from_10) times_from_10
           1%Q false false tt tt tt start_world eq_refl).
Defined.

Lemma simple_output_only_renames_classes_witness :
  w_globals start_world = module_globals ids ∧
  (** an irregular saccade: "ISaccade" in full, "Saccade" simplified *)
  (remodnav_call (Ok irregular_saccade) (TimeArray times_from_10) three_samples
     true false false).2 = Ok ([10%Q], [PyStr "ISaccade"], None) ∧
  (remodnav_call (Ok irregular_saccade) (TimeArray times_from_10) three_samples
     true false true).2 = Ok ([10%Q], [PyStr "Saccade"], None) ∧
  Forall2 (λ c c', ∃ code full simple,
             REMODNAV_CLASSES !! code = Some full ∧
             REMODNAV_SIMPLE !! code = Some simple ∧
             c = PyStr full ∧ c' = PyStr simple)
    [PyStr "ISaccade"] [PyStr "Saccade"] ∧
  (** a code in neither table: the same KeyError *)
  (remodnav_call (Ok events_with_unknown_code) (TimeArray times_from_10)
     three_samples true false false).2
  = (remodnav_call (Ok events_with_unknown_code) (TimeArray times_from_10)
       three_samples true false true).2.
Proof.
  split; [reflexivity|]. split; [reflexivity|]. split; [reflexivity|].
  pose proof (λ evs, simple_output_only_renames_classes
                (Remodnav0 := fixed_remodnav (Ok evs))
                three_samples three_samples (TimeArray times_from_10) 1%Q false
                tt tt tt start_world ids eq_refl) as Hrel.
  split; [exact (proj2 (proj2 (Hrel irregular_saccade)))|].
  reflexivity.
Defined.

Lemma classify_nslr_hmm_continuous_returns_witness :
  nslr_answer (NslrHmm0 := fixed_nslr (Ok late_segment))
    three_samples three_samples (TimeArray [0; 1; 2]%Q) tt
    = Ok ([0; 1; 2]%Q, late_segment) ∧
  (** the sample before the segment is unclassified *)
  discrete_to_continuous [0; 1; 2]%Q [1%Q] [PyInt 2]
    = Ok ([0; 1; 2]%Q, [PyNone; PyInt 2; PyInt 2]) ∧
  Forall2 (λ k c, g_CLASSES (w_globals start_world) !! k = Some c)
    [PyNone; PyInt 2; PyInt 2] ["None"; "Saccade"; "Saccade"]%string ∧
  (nslr_call (Ok late_segment) (TimeArray [0; 1; 2]%Q) three_samples false false).2
    = Ok ([0; 1; 2]%Q, ["None"; "Saccade"; "Saccade"]%string, None).
Proof.
  assert (Forall2 (λ k c, g_CLASSES (w_globals start_world) !! k = Some c)
            [PyNone; PyInt 2; PyInt 2] ["None"; "Saccade"; "Saccade"]%string)
    as Hnames by (repeat constructor).
  assert (discrete_to_continuous [0; 1; 2]%Q [1%Q] [PyInt 2]
          = Ok ([0; 1; 2]%Q, [PyNone; PyInt 2; PyInt 2])) as Hconv by reflexivity.
  split; [reflexivity|]. split; [exact Hconv|]. split; [exact Hnames|].
  exact (classify_nslr_hmm_continuous_returns
           (NslrHmm0 := fixed_nslr (Ok late_segment))
           three_samples three_samples (TimeArray [0; 1; 2]%Q) false tt start_world
           [0; 1; 2]%Q [PyInt 2; PyInt 2; PyInt 2] late_segment.1.2 [PyInt 2]
           [0; 1; 2]%Q [PyNone; PyInt 2; PyInt 2]
           ["None"; "Saccade"; "Saccade"]%string eq_refl Hconv Hnames).
Defined.

Lemma classify_nslr_hmm_discrete_returns_witness :
  nslr_answer (NslrHmm0 := fixed_nslr (Ok unpaired_answer))
    three_samples three_samples (TimeArray [0; 1; 2]%Q) tt
    = Ok ([0; 1; 2]%Q, unpaired_answer) ∧
  Forall2 (λ k c, g_CLASSES (w_globals start_world) !! k = Some c)
    [PyInt 1] ["Fixation"%string] ∧
  (** two segments and one class are returned as they are *)
  (nslr_call (Ok unpaired_answer) (TimeArray [0; 1; 2]%Q) three_samples true false).2
    = Ok ([0; 1]%Q, ["Fixation"%string], None) ∧
  length (map (λ s : Segment Q, fst (seg_t s)) (segments unpaired_answer.1.2)) = 2 ∧
  length ["Fixation"%string] = 1.
Proof.
  assert (Forall2 (λ k c, g_CLASSES (w_globals start_world) !! k = Some c)
            [PyInt 1] ["Fixation"%string]) as Hnames by (repeat constructor).
  split; [reflexivity|]. split; [exact Hnames|].
  exact (classify_nslr_hmm_discrete_returns
           (NslrHmm0 := fixed_nslr (Ok unpaired_answer))
           three_samples three_samples (TimeArray [0; 1; 2]%Q) false tt start_world
           [0; 1; 2]%Q [PyInt 1; PyInt 1; PyInt 1] unpaired_answer.1.2 [PyInt 1]
           ["Fixation"%string] eq_refl Hnames).
Defined.

Lemma classify_nslr_hmm_effects_are_one_call_witness :
  length three_samples = length three_samples ∧
  (** a time vector of another length than the gaze arrays, out of order *)
  (nslr_call (Ok one_segment_from_10) (TimeArray [4; 0]%Q) three_samples
     false false).1
    = after start_world
        [Call_classify_gaze [4; 0]%Q (zip three_samples three_samples) tt].
Proof.
  split; [reflexivity|].
  exact (proj2 (classify_nslr_hmm_effects_are_one_call
                  (NslrHmm0 := fixed_nslr (Ok one_segment_from_10))
                  three_samples three_samples (TimeArray [4; 0]%Q) false false
                  tt start_world)
           [4; 0]%Q eq_refl eq_refl).
Defined.

Lemma first_absent_label_is_reported_witness :
  (remodnav_call (Ok events_with_unknown_code) (TimeArray times_from_10)
     three_samples false false false).2 = Err (KeyError (PyStr "BLNK")) ∧
  (nslr_call (Ok segments_with_unknown_id) (TimeArray [0; 1; 2]%Q) three_samples
     true false).2 = Err (KeyError (PyInt 99)).
Proof.
  pose proof (first_absent_label_is_reported
                (NslrHmm0 := fixed_nslr (Ok segments_with_unknown_id))
                (Remodnav0 := fixed_remodnav (Ok events_with_unknown_code))
                three_samples three_samples) as Hfirst.
  split.
  - apply (proj1 (Hfirst (TimeArray times_from_10) 1%Q false false false
                    tt tt tt tt start_world)
             10%Q [101 # 10; 51 # 5]%Q
             [ {| start_time := 0%Q; end_time := (1 # 10)%Q; label := PyStr "FIXA" |} ]
             {| start_time := (1 # 10)%Q; end_time := (1 # 5)%Q;
                label := PyStr "BLNK" |} [] eq_refl).
    + apply Forall_cons_2; [by eexists|apply Forall_nil_2].
    + reflexivity.
  - apply (proj2 (Hfirst (TimeArray [0; 1; 2]%Q) 1%Q false false false
                    tt tt tt tt start_world)
             [0; 1; 2]%Q [PyInt 1; PyInt 99; PyInt 99] segments_with_unknown_id.1.2
             [PyInt 1] (PyInt 99) [] eq_refl).
    + apply Forall_cons_2; [by eexists|apply Forall_nil_2].
    + reflexivity.
Defined.

(** ** Unknown labels and the converter *)

Section CoveringFacts.
Context {P : Type} (le lt : P → P → bool).
Hypothesis lt_trans : ∀ a b c, lt a b = true → lt b c = true → lt a c = true.
Hypothesis lt_not_le : ∀ a b, lt a b = true → le b a = false.

Local Abbreviation increasing := (UtilsSpec.strictly_increasing lt).
Local Abbreviation covering := (UtilsSpec.covering le lt).



End CoveringFacts.






Section UnknownLabels.
Context {kwargs : Type}.
Context (N : Numeric Q) (B : NslrHmm Q kwargs) (R : Remodnav Q kwargs).
Implicit Types w : @world Q kwargs.

Local Abbreviation remodnav :=
  (classify_remodnav (Numeric0 := N) (Remodnav0 := R) (Utils0 := Exact.utils)).
Local Abbreviation nslr :=
  (classify_nslr_hmm (Numeric0 := N) (NslrHmm0 := B) (Utils0 := Exact.utils)).
Local Abbreviation events_of :=
  (remodnav_events (Numeric0 := N) (Remodnav0 := R)).
Local Abbreviation answer_of := (nslr_answer (Numeric0 := N) (NslrHmm0 := B)).
Local Abbreviation covering := (UtilsSpec.covering Qle_bool UtilsSpec.Qlt_bool).

End UnknownLabels.



(** * Calls that share objects *)

Section ObjectFacts.
Context {num kwargs : Type}.
Context `{!Numeric num, !NslrHmm num kwargs, !Remodnav num kwargs,
          !RemodnavRecords num kwargs, !Utils num}.
Implicit Types s : @objects num kwargs.
Implicit Types h : store num.

Lemma set_records_same s : set_records (o_records s) s = s.
Proof. by destruct s. Qed.

Lemma set_records_twice h h' s : set_records h' (set_records h s) = set_records h' s.
Proof. done. Qed.

Lemma set_world_same s : set_world (o_world s) s = s.
Proof. by destruct s. Qed.

Lemma realign_record_at_Ok t0 ts (refs : list nat) s i r ev :
  refs !! i = Some r → o_records s !! r = Some ev →
  realign_record_at (t0 :: ts) refs i s
  = (set_records (<[r := realigned t0 ev]> (o_records s)) s, Ok tt).
Proof.
  intros Hi Hr.
  unfold realign_record_at, read_record, reading, write_record, on_world, lift,
    getindex, deref, mbind, MS_bind.
  rewrite Hi. simpl. rewrite Hr. simpl.
  rewrite lookup_insert_eq. simpl. unfold set_records. simpl.
  by rewrite insert_insert_eq.
Qed.

Lemma Forall2_insert_other h r v (rest : list nat) (evs : list (event num)) :
  r ∉ rest →
  Forall2 (λ r' ev, h !! r' = Some ev) rest evs →
  Forall2 (λ r' ev, <[r := v]> h !! r' = Some ev) rest evs.
Proof.
  intros Hr Hall. induction Hall as [|r' ev rest evs Hr' _ IH]; constructor.
  - rewrite lookup_insert_ne; [done|]. intros ->. apply Hr, list_elem_of_here.
  - apply IH. intros Hin. by apply Hr, list_elem_of_further.
Qed.

(** With a first timestamp, and identities that do not repeat, the loop
    shifts each record once and leaves all other records alone. *)
Lemma for_range_realign_records t0 ts (before rest : list nat)
    (evs : list (event num)) s :
  NoDup rest →
  Forall2 (λ r ev, o_records s !! r = Some ev) rest evs →
  ∃ h',
    for_range_records (realign_record_at (t0 :: ts) (before ++ rest))
      (seq (length before) (length rest)) s = (set_records h' s, Ok tt) ∧
    Forall2 (λ r ev, h' !! r = Some (realigned t0 ev)) rest evs ∧
    ∀ r, r ∉ rest → h' !! r = o_records s !! r.
Proof.
  intros Hdup. revert before s evs.
  induction Hdup as [|r rest Hr Hdup IH]; intros before s evs Hall.
  - inversion Hall; subst. exists (o_records s). simpl.
    rewrite set_records_same. split_and!; [done|constructor|done].
  - inversion Hall as [|? ev ? evs' Hev Hall']; subst. simpl.
    unfold mbind at 1, MS_bind at 1.
    rewrite (realign_record_at_Ok _ _ _ _ _ r ev)
      by (done || apply list_lookup_middle; reflexivity).
    destruct (IH (before ++ [r])
                (set_records (<[r := realigned t0 ev]> (o_records s)) s) evs')
      as (h' & Hrun & Hrest & Hother).
    { by apply Forall2_insert_other. }
    exists h'. rewrite length_app, <- (assoc_L (++)) in Hrun. simpl in Hrun.
    replace (length before + 1) with (S (length before)) in Hrun by lia.
    split_and!; [done| |].
    + constructor; [|done]. rewrite (Hother r Hr). simpl.
      by rewrite lookup_insert_eq.
    + intros r' Hr'. apply not_elem_of_cons in Hr' as [Hne Hr'].
      rewrite (Hother r' Hr'). simpl. by rewrite lookup_insert_ne.
Qed.

Lemma realign_records_cons t0 ts (refs : list nat) (evs : list (event num)) s :
  NoDup refs →
  Forall2 (λ r ev, o_records s !! r = Some ev) refs evs →
  ∃ h',
    realign_records (t0 :: ts) refs s = (set_records h' s, Ok tt) ∧
    Forall2 (λ r ev, h' !! r = Some (realigned t0 ev)) refs evs ∧
    ∀ r, r ∉ refs → h' !! r = o_records s !! r.
Proof.
  intros Hdup Hall.
  exact (for_range_realign_records t0 ts [] refs evs s Hdup Hall).
Qed.

Lemma realign_records_empty_times (refs : list nat) (evs : list (event num)) s :
  Forall2 (λ r ev, o_records s !! r = Some ev) refs evs →
  realign_records [] refs s
  = (s, match refs with [] => Ok tt | _ :: _ => Err IndexError end).
Proof.
  intros Hall. unfold realign_records.
  destruct Hall as [|r ev refs evs Hr _]; [done|].
  simpl. unfold mbind at 1, MS_bind at 1.
  unfold realign_record_at, read_record, reading, write_record, on_world, lift,
    getindex, deref, mbind, MS_bind.
  simpl. rewrite Hr. simpl. by rewrite !set_world_same.
Qed.

(** Whatever the records are, the loop writes to records only. *)
Lemma realign_record_at_frame times (refs : list nat) i s :
  ∃ h', (realign_record_at times refs i s).1 = set_records h' s.
Proof.
  unfold realign_record_at, read_record, reading, write_record, on_world, lift,
    mbind, MS_bind.
  destruct (getindex refs i) as [r|]; simpl; rewrite ?set_world_same;
    [|by exists (o_records s); rewrite set_records_same].
  destruct (deref (o_records s) r) as [ev|]; simpl; rewrite ?set_world_same;
    [|by exists (o_records s); rewrite set_records_same].
  destruct (getindex times 0) as [t0|]; simpl; rewrite ?set_world_same;
    [|by exists (o_records s); rewrite set_records_same].
  match goal with |- context [deref ?h r] => destruct (deref h r) as [ev'|] end;
    simpl; rewrite ?set_world_same; by eexists.
Qed.

Lemma for_range_records_frame (body : nat → MS unit) range s :
  (∀ i s, ∃ h', (body i s).1 = set_records h' s) →
  ∃ h', (for_range_records body range s).1 = set_records h' s.
Proof.
  intros Hbody. revert s. induction range as [|i range IH]; intros s; simpl.
  - exists (o_records s). by rewrite set_records_same.
  - unfold mbind, MS_bind. destruct (Hbody i s) as [h1 H1].
    destruct (body i s) as [s1 [[]|e]]; simpl in H1; subst s1; [|by eexists].
    destruct (IH (set_records h1 s)) as [h2 H2]. exists h2. by rewrite H2.
Qed.

Lemma realign_records_frame times (refs : list nat) s :
  ∃ h', (realign_records times refs s).1 = set_records h' s.
Proof. apply for_range_records_frame, realign_record_at_frame. Qed.

Lemma comprehension_deref {B} (f : event num → result B) (refs : list nat)
    (evs : list (event num)) h :
  Forall2 (λ r ev, h !! r = Some ev) refs evs →
  comprehension (λ r, match deref h r with
                      | Ok ev => f ev
                      | Err e => Err e
                      end) refs
  = comprehension f evs.
Proof.
  induction 1 as [|r ev refs evs Hr _ IH]; simpl; [done|].
  unfold deref at 1. rewrite Hr. by rewrite IH.
Qed.

Lemma records_of_Some h (refs : list nat) (evs : list (event num)) :
  records_of h refs = Some evs ↔ Forall2 (λ r ev, h !! r = Some ev) refs evs.
Proof. apply mapM_Some. Qed.

(** On records that do not repeat, the adapter does to the records what the
    adapter on values does to the events, and leaves other records alone. *)
Lemma remodnav_after_backend_records_values times (refs : list nat)
    (evs : list (event num)) s rd ro so :
  NoDup refs →
  Forall2 (λ r ev, o_records s !! r = Some ev) refs evs →
  ∃ h' res,
    remodnav_after_backend_records times refs rd ro so s = (set_records h' s, res) ∧
    (∀ r, r ∉ refs → h' !! r = o_records s !! r) ∧
    (∀ segs classes ids,
       res = Ok (segs, classes, Some ids) → is_Some (records_of h' ids)) ∧
    observed (set_records h' s, res)
    = remodnav_after_backend (w_globals (o_world s)) times evs rd ro so.
Proof.
  intros Hdup Hall. unfold remodnav_after_backend_records, remodnav_after_backend.
  unfold mbind at 1, MS_bind at 1.
  destruct times as [|t0 ts].
  - rewrite (realign_records_empty_times _ _ _ Hall).
    exists (o_records s). rewrite set_records_same.
    destruct Hall as [|r ev refs evs Hr Hall].
    + rewrite realign_nil. simpl. unfold mbind, MS_bind, on_world, reading.
      simpl. rewrite !set_world_same. eexists. by split_and!.
    + rewrite (realign_empty_times ev evs). eexists. by split_and!.
  - destruct (realign_records_cons t0 ts refs evs s Hdup Hall)
      as (h' & -> & Hshift & Hother).
    exists h'. rewrite realign_cons.
    assert (Forall2 (λ r ev, h' !! r = Some ev) refs (map (realigned t0) evs))
      as Hshift' by (by apply Forall2_fmap_r).
    pose proof (proj2 (records_of_Some _ _ _) Hshift') as Hrec.
    unfold mbind, MS_bind, result_bind, on_world, reading, read_global, lift,
      mret, MS_ret.
    cbn [o_world o_records set_records set_world fst snd].
    rewrite (comprehension_deref _ _ _ _ Hshift').
    destruct so;
    (match goal with |- context [comprehension ?f ?l] =>
       destruct (comprehension f l) as [rows|] end;
     [|eexists; by split_and!]);
    (destruct (unpack_two (zip_star rows)) as [[segs classes]|];
     [|eexists; by split_and!]);
    (destruct rd;
     [destruct ro; eexists;
        (split_and!;
         [done|done|intros ??? [= _ _ <-]; rewrite Hrec; by eexists || done|]);
        unfold observed; simpl; by rewrite ?Hrec|]);
    cbn [o_world o_records set_records set_world fst snd];
    (destruct (discrete_to_continuous _ _ _) as [[segs' classes']|];
     [|eexists; by split_and!]);
    destruct ro; eexists;
      (split_and!;
       [done|done|intros ??? [= _ _ <-]; rewrite Hrec; by eexists || done|]);
      unfold observed; simpl; by rewrite ?Hrec.
Qed.

(** Whatever the records are, lines 168 to 185 write to records only. *)
Lemma remodnav_after_backend_records_frame times (refs : list nat) s rd ro so :
  ∃ h', (remodnav_after_backend_records times refs rd ro so s).1 = set_records h' s.
Proof.
  unfold remodnav_after_backend_records. unfold mbind at 1, MS_bind at 1.
  destruct (realign_records_frame times refs s) as [h' Hframe].
  destruct (realign_records times refs s) as [s' [[]|e]]; simpl in Hframe;
    subst s'; [|by eexists].
  exists h'.
  unfold mbind, MS_bind, result_bind, on_world, reading, read_global, lift,
    mret, MS_ret.
  cbn [o_world o_records set_records set_world fst snd].
  match goal with |- context [comprehension ?f ?l] =>
    destruct (comprehension f l) as [rows|] end; [|done].
  destruct (unpack_two (zip_star rows)) as [[segs classes]|]; [|done].
  destruct rd.
  - by destruct ro.
  - cbn [o_world o_records set_records set_world fst snd].
    destruct (discrete_to_continuous _ _ _) as [[segs' classes']|]; [|done].
    by destruct ro.
Qed.

End ObjectFacts.

Section ObjectCalls.
Context {num kwargs : Type}.
Context `{!Numeric num, !NslrHmm num kwargs, !Remodnav num kwargs,
          !RemodnavRecords num kwargs, !Utils num}.
Implicit Types s : @objects num kwargs.
Implicit Types h : store num.

(** Lines 161 to 185 on objects. *)
Local Abbreviation from_line_161 x y px2deg rd ro so ckw pkw rkw times :=
  (let sampling_rate := np_recip (np_mean (diffs times)) in
   data ← on_world (lift (columns x y));
   on_world (emit (Call_EyegazeClassifier px2deg sampling_rate ckw));;
   clf ← on_world (lift (EyegazeClassifier px2deg sampling_rate ckw));
   on_world (emit (Call_preproc data pkw));;
   data_preproc ← on_world (lift (preproc clf data pkw));
   on_world (emit (Call_clf rkw));;
   events ← call_clf clf data_preproc rkw;
   remodnav_after_backend_records times events rd ro so).

Lemma classify_remodnav_records_unfold x y time px2deg rd ro so ckw pkw rkw :
  classify_remodnav_records x y time px2deg rd ro so ckw pkw rkw =
  (times ← on_world (lift (time_array_of time x));
   (if np_gt (np_std (diffs times)) tolerance
    then warnings_warn irregular_sampling_message else mret tt);;
   from_line_161 x y px2deg rd ro so ckw pkw rkw times).
Proof. reflexivity. Qed.

Ltac object_step :=
  cbn [fst snd set_world set_records o_world o_records o_registry o_shown
       w_globals w_trace];
  unfold mbind at 1, MS_bind at 1; try unfold on_world at 1.

Lemma from_line_161_run x y time px2deg rd ro so ckw pkw rkw times s :
  returns_new_records →
  time_array_of time x = Ok times →
  ∃ h' res effects,
    from_line_161 x y px2deg rd ro so ckw pkw rkw times s
    = (set_records h' (set_world (after (o_world s) effects) s), res) ∧
    (∀ r, is_Some (o_records s !! r) → h' !! r = o_records s !! r) ∧
    (∀ segs classes ids,
       res = Ok (segs, classes, Some ids) → is_Some (records_of h' ids)) ∧
    ∀ w, w_globals w = w_globals (o_world s) →
      classify_remodnav x y time px2deg rd ro so ckw pkw rkw w
      = (after w (irregularity_warning times ++ effects),
         observed (set_records h' s, res)).
Proof.
  intros Hnew Htimes. cbv zeta.
  setoid_rewrite classify_remodnav_unfold. rewrite Htimes. cbv zeta.
  unfold effective_sampling_rate.
  set (rate := np_recip (np_mean (diffs times))).
  destruct s as [[g tr] h reg shown]. unfold after.
  cbn [o_world o_records w_globals w_trace].
  unfold mbind at 1, MS_bind at 1. unfold on_world at 1, lift at 1.
  destruct (columns x y) as [data|e].
  2: { exists h, (Err e), []. rewrite !(right_id_L [] (++)). by split_and!. }
  object_step. unfold emit at 1. object_step. unfold lift at 1.
  destruct (EyegazeClassifier px2deg rate ckw) as [clf|e].
  2: { exists h, (Err e), [Call_EyegazeClassifier px2deg rate ckw].
       by split_and!. }
  object_step. unfold emit at 1. object_step. unfold lift at 1.
  destruct (preproc clf data pkw) as [dp|e].
  2: { exists h, (Err e),
         [Call_EyegazeClassifier px2deg rate ckw; Call_preproc data pkw].
       rewrite <- !(assoc_L (++)). by split_and!. }
  object_step. unfold emit at 1. object_step. unfold call_clf.
  cbn [fst snd set_world set_records o_world o_records o_registry o_shown
       w_globals w_trace].
  rewrite <- !(assoc_L (++)). simpl app.
  specialize (Hnew clf dp rkw h).
  destruct (clf_call clf dp rkw) as [events|e].
  2: { rewrite Hnew. exists h, (Err e),
         [Call_EyegazeClassifier px2deg rate ckw; Call_preproc data pkw;
          Call_clf rkw].
       by split_and!. }
  destruct Hnew as (h1 & ids & -> & Hdup & Hfresh & Hheld & Hkept).
  cbn [fst snd set_world set_records o_world o_records o_registry o_shown
       w_globals w_trace].
  match goal with |- context [remodnav_after_backend_records _ _ _ _ _ ?s1] =>
    destruct (remodnav_after_backend_records_values times ids events s1 rd ro so
                Hdup Hheld) as (h2 & res & Htail & Hother & Hsome & Hobs)
  end.
  rewrite Htail. exists h2, res,
    [Call_EyegazeClassifier px2deg rate ckw; Call_preproc data pkw; Call_clf rkw].
  split_and!; [done| |done|].
  - intros r [ev Hr]. rewrite Hother.
    + simpl. apply Hkept. intros Hin.
      rewrite Forall_forall in Hfresh. specialize (Hfresh r Hin). congruence.
    + intros Hin. rewrite Forall_forall in Hfresh. specialize (Hfresh r Hin).
      simpl in Hr. congruence.
  - intros w Hw. f_equal. simpl in Hw. rewrite Hw. symmetry. exact Hobs.
Qed.

(** The state a call of [classify_remodnav] leaves and what it returns, when
    the backend creates its records anew. *)
Lemma classify_remodnav_records_run x y time px2deg rd ro so ckw pkw rkw s :
  returns_new_records →
  ∃ h' res,
    classify_remodnav_records x y time px2deg rd ro so ckw pkw rkw s
    = ({| o_world := (classify_remodnav x y time px2deg rd ro so ckw pkw rkw
                        (o_world s)).1;
          o_records := h';
          o_registry := o_registry s ∪ list_to_set (warnings_given x time);
          o_shown := o_shown s
                     ++ filter (λ m, m ∉ o_registry s) (warnings_given x time) |},
       res) ∧
    (∀ r, is_Some (o_records s !! r) → h' !! r = o_records s !! r) ∧
    (∀ segs classes ids,
       res = Ok (segs, classes, Some ids) → is_Some (records_of h' ids)) ∧
    observed (set_records h' s, res)
    = (classify_remodnav x y time px2deg rd ro so ckw pkw rkw (o_world s)).2.
Proof.
  intros Hnew. rewrite classify_remodnav_records_unfold. unfold warnings_given.
  unfold mbind at 1, MS_bind at 1, on_world at 1, lift at 1.
  destruct (time_array_of time x) as [times|e] eqn:Htimes.
  2: { rewrite classify_remodnav_unfold, Htimes.
       exists (o_records s), (Err e). simpl.
       rewrite filter_nil, (right_id_L ∅ (∪)), (right_id_L [] (++)).
       destruct s. by split_and!. }
  rewrite set_world_same. unfold mbind at 1, MS_bind at 1.
  assert (∀ s1 warned,
    o_records s1 = o_records s →
    o_world s1 = after (o_world s) warned →
    irregularity_warning times = warned →
    ∃ h' res,
      from_line_161 x y px2deg rd ro so ckw pkw rkw times s1
      = ({| o_world := (classify_remodnav x y time px2deg rd ro so ckw pkw rkw
                          (o_world s)).1;
            o_records := h';
            o_registry := o_registry s1;
            o_shown := o_shown s1 |}, res) ∧
      (∀ r, is_Some (o_records s !! r) → h' !! r = o_records s !! r) ∧
      (∀ segs classes ids,
         res = Ok (segs, classes, Some ids) → is_Some (records_of h' ids)) ∧
      observed (set_records h' s, res)
      = (classify_remodnav x y time px2deg rd ro so ckw pkw rkw (o_world s)).2)
    as Hrest.
  { intros s1 warned Hrecords Hworld Hwarned.
    destruct (from_line_161_run x y time px2deg rd ro so ckw pkw rkw times s1
                Hnew Htimes) as (h' & res & effects & Hrun & Hrec & Hsome & Hval).
    exists h', res. rewrite Hrun.
    rewrite (Hval (o_world s)) by (by rewrite Hworld).
    rewrite Hrecords in Hrec. split_and!; [|done|done|done].
    unfold set_records, set_world. simpl. rewrite Hworld, Hwarned, after_after.
    done. }
  unfold irregularity_warning in Hrest.
  destruct (np_gt (np_std (diffs times)) tolerance).
  - unfold warnings_warn, warn, emit. cbn [fst snd].
    destruct (decide (irregular_sampling_message ∈ o_registry _)) as [Hin|Hin];
      simpl in Hin.
    + edestruct Hrest as (h' & res & -> & Hrec & Hsome & Hval);
        [| |reflexivity|]; [done|done|].
      exists h', res. split_and!; [|done|done|done].
      simpl. rewrite filter_cons_False by (by intros Hnot; apply Hnot).
      rewrite filter_nil, (right_id_L [] (++)), (right_id_L ∅ (∪)).
      do 2 f_equal. rewrite (comm_L (∪)). symmetry.
      by apply subseteq_union_1_L, singleton_subseteq_l.
    + edestruct Hrest as (h' & res & -> & Hrec & Hsome & Hval);
        [| |reflexivity|]; [done|done|].
      exists h', res. split_and!; [|done|done|done].
      simpl. rewrite filter_cons_True by done.
      rewrite filter_nil, (right_id_L ∅ (∪)). do 2 f_equal. apply (comm_L (∪)).
  - edestruct (Hrest s) as (h' & res & Hrun & Hrec & Hsome & Hval);
      [| |reflexivity|]; [done|by rewrite after_nil|].
    unfold mret at 1, MS_ret at 1. rewrite Hrun.
    exists h', res. split_and!; [|done|done|done].
    simpl. rewrite filter_nil, (right_id_L [] (++)), (right_id_L ∅ (∪)). done.
Qed.
End ObjectCalls.

Lemma shown_once (registry : gset string) (given : list string) :
  filter (λ m, m ∉ registry ∪ list_to_set given) given = [].
Proof.
  destruct (filter _ given) as [|m shown] eqn:Hshown; [done|].
  assert (m ∈ filter (λ m, m ∉ registry ∪ list_to_set given) given) as Hin
    by (rewrite Hshown; apply list_elem_of_here).
  apply list_elem_of_filter in Hin as [Hnot Hin].
  exfalso. apply Hnot, elem_of_union_r, elem_of_list_to_set, Hin.
Qed.

Section RepeatedCalls.
Context {num kwargs : Type}.
Context `{!Numeric num, !NslrHmm num kwargs, !Remodnav num kwargs,
          !RemodnavRecords num kwargs, !Utils num}.
Implicit Types s : @objects num kwargs.

Lemma on_world_pair {A} (m : @M num kwargs A) s :
  on_world m s = (set_world (m (o_world s)).1 s, (m (o_world s)).2).
Proof. unfold on_world. by destruct (m (o_world s)). Qed.

(** C9, as the code has it.  [classify_remodnav] writes to the event records
    its backend returns and, through [warnings.warn], to the warning
    registry of the module; [classify_nslr_hmm] writes to nothing.  When the
    backend creates its records anew on every call, a call returns what the
    adapter on values returns, in whatever state it starts: a call repeated
    in the state the first one left returns the same, and so does a call in
    any state with the same tables.  What the first call returned is the
    same after the second, no record that existed before a call is changed
    by it, no table is changed, and both calls give the same warnings and
    make the same backend calls, those of the adapter on values.  The
    registry is what a call leaves for the next: it holds the warnings
    given, and a warning the first call gave is not shown by the second. *)
Theorem repeated_calls_return_the_same x y time px2deg (rd ro so : bool)
    ckw pkw rkw kw s :
  returns_new_records →
  (let call := classify_remodnav_records x y time px2deg rd ro so ckw pkw rkw in
   let first := call s in
   let second := call first.1 in
   (observed first
    = (classify_remodnav x y time px2deg rd ro so ckw pkw rkw (o_world s)).2 ∧
    observed second = observed first ∧
    observed (second.1, first.2) = observed first ∧
    ∀ s2, w_globals (o_world s2) = w_globals (o_world s) →
      observed (call s2) = observed first) ∧
   ((∀ r ev, o_records s !! r = Some ev → o_records first.1 !! r = Some ev) ∧
    (∀ r ev, o_records first.1 !! r = Some ev →
       o_records second.1 !! r = Some ev)) ∧
   (o_world first.1
    = (classify_remodnav x y time px2deg rd ro so ckw pkw rkw (o_world s)).1 ∧
    w_globals (o_world first.1) = w_globals (o_world s) ∧
    w_globals (o_world second.1) = w_globals (o_world s)) ∧
   (∃ effects,
      o_world first.1 = after (o_world s) effects ∧
      o_world second.1 = after (o_world first.1) effects) ∧
   (o_registry first.1 = o_registry s ∪ list_to_set (warnings_given x time) ∧
    o_registry second.1 = o_registry first.1 ∧
    o_shown first.1
    = o_shown s ++ filter (λ m, m ∉ o_registry s) (warnings_given x time) ∧
    o_shown second.1 = o_shown first.1)) ∧
  (let call := classify_nslr_hmm_records x y time rd ro kw in
   let first := call s in
   let second := call first.1 in
   first.2 = (classify_nslr_hmm x y time rd ro kw (o_world s)).2 ∧
   second.2 = first.2 ∧
   (o_records first.1 = o_records s ∧ o_registry first.1 = o_registry s ∧
    o_shown first.1 = o_shown s) ∧
   w_globals (o_world first.1) = w_globals (o_world s) ∧
   ∃ effects,
     o_world first.1 = after (o_world s) effects ∧
     o_world second.1 = after (o_world first.1) effects).
Proof.
  intros Hnew. split.
  - cbv zeta.
    assert (∀ s0, w_globals (o_world s0) = w_globals (o_world s) →
      observed (classify_remodnav_records x y time px2deg rd ro so ckw pkw rkw s0)
      = (classify_remodnav x y time px2deg rd ro so ckw pkw rkw (o_world s)).2)
      as Hvalue.
    { intros s0 Hg.
      destruct (classify_remodnav_records_run x y time px2deg rd ro so
                  ckw pkw rkw s0 Hnew) as (h0 & res0 & -> & _ & _ & Hval).
      rewrite !classify_remodnav_result in *. rewrite <- Hg. exact Hval. }
    destruct (classify_remodnav_records_run x y time px2deg rd ro so
                ckw pkw rkw s Hnew) as (h1 & res1 & Hrun1 & Hrec1 & Hsome1 & Hval1).
    rewrite Hrun1. cbn [fst snd].
    match goal with |- context [classify_remodnav_records _ _ _ _ _ _ _ _ _ _ ?s1] =>
      destruct (classify_remodnav_records_run x y time px2deg rd ro so
                  ckw pkw rkw s1 Hnew)
        as (h2 & res2 & Hrun2 & Hrec2 & Hsome2 & Hval2);
      pose proof (Hvalue s1) as Hvalue1
    end.
    rewrite Hrun2 in *. cbn [fst snd o_world o_records o_registry o_shown] in *.
    rewrite classify_remodnav_globals in Hvalue1.
    specialize (Hvalue1 eq_refl).
    split_and!.
    + exact Hval1.
    + rewrite Hvalue1. symmetry. exact Hval1.
    + destruct res1 as [[[segs classes] [ids|]]|e]; [|done|done].
      destruct (Hsome1 segs classes ids eq_refl) as [evs Hevs].
      unfold observed. cbn [fst snd o_records]. rewrite Hevs.
      apply records_of_Some in Hevs.
      assert (records_of h2 ids = Some evs) as ->; [|done].
      apply records_of_Some. eapply Forall2_impl; [exact Hevs|].
      intros r ev Hr. simpl in Hr. rewrite Hrec2; by eauto.
    + intros s2 Hg. rewrite (Hvalue s2 Hg). symmetry. exact Hval1.
    + intros r ev Hr. rewrite Hrec1; by eauto.
    + intros r ev Hr. rewrite Hrec2; by eauto.
    + done.
    + apply classify_remodnav_globals.
    + by rewrite !classify_remodnav_globals.
    + destruct (classify_remodnav_effects x y time px2deg rd ro so ckw pkw rkw)
        as [effects Heff].
      exists effects. by rewrite !Heff.
    + done.
    + by rewrite <- (assoc_L (∪)), (idemp_L (∪)).
    + done.
    + by rewrite shown_once, (right_id_L [] (++)).
  - cbv zeta. unfold classify_nslr_hmm_records. rewrite !on_world_pair.
    cbn [fst snd o_world set_world o_records o_registry o_shown].
    destruct (classify_nslr_hmm_effects x y time rd ro kw) as [effects Heff].
    rewrite !classify_nslr_hmm_result, !classify_nslr_hmm_globals.
    split_and!; [done|done|done|done|done|done|].
    exists effects. by rewrite !Heff.
Qed.
End RepeatedCalls.

(** ** A backend that creates its records *)

Lemma creating_returns_new_records (R : Remodnav Q unit) :
  @returns_new_records Q unit R (creating R).
Proof.
  intros clf dp kw h. unfold clf_call_records, creating.
  destruct (clf_call clf dp kw) as [events|e]; [|done].
  set (ids := fresh_list (length events) (dom h)).
  assert (length ids = length events) as Hlen by apply length_fresh_list.
  assert (NoDup ids) as Hdup by apply NoDup_fresh_list.
  assert (∀ r, r ∈ ids → h !! r = None) as Hfresh.
  { intros r Hin. apply not_elem_of_dom. by eapply fresh_list_is_fresh. }
  assert ((zip ids events).*1 = ids) as Hfst by (apply fst_zip; lia).
  exists (list_to_map (zip ids events) ∪ h), ids.
  split_and!; [done|done| | |].
  - by apply Forall_forall.
  - apply Forall2_same_length_lookup_2; [done|].
    intros i r ev Hr Hev. apply lookup_union_Some_l.
    apply elem_of_list_to_map_1; [by rewrite Hfst|].
    apply list_elem_of_lookup. exists i. by apply lookup_zip_Some.
  - intros r Hr. apply lookup_union_r, not_elem_of_list_to_map_1.
    by rewrite Hfst.
Qed.

(** The irregular recording from second 10 on, classified twice with a
    backend that creates its records: both calls return the events at
    seconds 10 and 10.25, the records 0 and 1 that existed before stay as
    they were, and the warning is shown once. *)
Lemma repeated_calls_return_the_same_witness :
  let call :=
    classify_remodnav_records (Remodnav0 := fixed_remodnav (Ok local_quarters))
      (RemodnavRecords0 := creating _)
      five_samples five_samples (TimeArray late_irregular_times) 1%Q
      true true false tt tt tt in
  let first := call kept_records in
  let second := call first.1 in
  @returns_new_records Q unit (fixed_remodnav (Ok local_quarters)) (creating _) ∧
  observed first
  = Ok ([10; 41 # 4]%Q, [PyStr "Fixation"; PyStr "Saccade"],
        Some [ {| start_time := 10%Q; end_time := (41 # 4)%Q;
                  label := PyStr "FIXA" |};
               {| start_time := (41 # 4)%Q; end_time := (21 # 2)%Q;
                  label := PyStr "SACC" |} ]) ∧
  observed second = observed first ∧
  observed (second.1, first.2) = observed first ∧
  o_records second.1 !! 0 = o_records kept_records !! 0 ∧
  o_shown first.1 = [irregular_sampling_message] ∧
  o_shown second.1 = o_shown first.1.
Proof.
  cbv zeta.
  pose proof (creating_returns_new_records (fixed_remodnav (Ok local_quarters)))
    as Hnew.
  destruct (repeated_calls_return_the_same
              (NslrHmm0 := fixed_nslr (Ok one_segment_from_10))
              (Remodnav0 := fixed_remodnav (Ok local_quarters))
              (RemodnavRecords0 := creating _)
              five_samples five_samples (TimeArray late_irregular_times) 1%Q
              true true false tt tt tt tt kept_records Hnew)
    as [((Hval & Hsame & Hkept & _) & (Hold1 & Hold2) & _ & _
         & (_ & _ & Hshown1 & Hshown2)) _].
  split; [exact Hnew|].
  split; [rewrite Hval; vm_compute; reflexivity|].
  split; [exact Hsame|]. split; [exact Hkept|].
  split; [|split; [rewrite Hshown1; vm_compute; reflexivity|exact Hshown2]].
  eapply Hold2, Hold1. vm_compute. reflexivity.
Defined.

(** ** A backend that keeps its records *)

(** C9 as stated fails.  The backend is a fixed function that returns the
    same two records on every call: the first call moves them to second 10,
    the second call moves them on to second 20 and returns other
    breakpoints, and the events the first call returned have moved with
    them.  And the registry of the warnings module is written by one call
    and read by the next: the irregular recording classified twice shows its
    warning once. *)
Lemma repeated_calls_can_differ :
  (let call :=
     classify_remodnav_records (Remodnav0 := fixed_remodnav (Ok local_quarters))
       (RemodnavRecords0 := keeping _ [0; 1])
       three_samples three_samples (TimeArray regular_times) 1%Q
       true true false tt tt tt in
   let first := call kept_records in
   let second := call first.1 in
   observed first
   = Ok ([10; 41 # 4]%Q, [PyStr "Fixation"; PyStr "Saccade"],
         Some [ {| start_time := 10%Q; end_time := (41 # 4)%Q;
                   label := PyStr "FIXA" |};
                {| start_time := (41 # 4)%Q; end_time := (21 # 2)%Q;
                   label := PyStr "SACC" |} ]) ∧
   observed second
   = Ok ([20; 81 # 4]%Q, [PyStr "Fixation"; PyStr "Saccade"],
         Some [ {| start_time := 20%Q; end_time := (81 # 4)%Q;
                   label := PyStr "FIXA" |};
                {| start_time := (81 # 4)%Q; end_time := (41 # 2)%Q;
                   label := PyStr "SACC" |} ]) ∧
   observed (second.1, first.2)
   = Ok ([10; 41 # 4]%Q, [PyStr "Fixation"; PyStr "Saccade"],
         Some [ {| start_time := 20%Q; end_time := (81 # 4)%Q;
                   label := PyStr "FIXA" |};
                {| start_time := (81 # 4)%Q; end_time := (41 # 2)%Q;
                   label := PyStr "SACC" |} ])) ∧
  (let call :=
     classify_remodnav_records (Remodnav0 := fixed_remodnav (Ok local_quarters))
       (RemodnavRecords0 := creating _)
       five_samples five_samples (TimeArray late_irregular_times) 1%Q
       true false false tt tt tt in
   let first := call kept_records in
   let second := call first.1 in
   o_shown kept_records = [] ∧
   o_shown first.1 = [irregular_sampling_message] ∧
   o_shown second.1 = [irregular_sampling_message] ∧
   second.2 = first.2 ∧
   elements (o_registry first.1) = [irregular_sampling_message]).
Proof. vm_compute. by split_and!. Qed.
